(** * fio: sectioned key/value files and delimited tables

    A shallow embedding of the Go package [fio] (SettingsINI,
    SpreadsheetDelim and the shared line reader of Common.go), with the
    properties of its specification stated and proved over it.

    Conventions of the embedding.
    - A Go [string] is a [list ascii] (a sequence of bytes).  The library
      functions [strings.TrimSpace] and [strings.Split] are embedded for
      ASCII text, where a byte is a character.
    - A Go [int] is a [Z]; the machine width is not modelled.
    - A run-time panic (index out of range, negative capacity) is the
      outcome [Panic]; a method that returns is [Value].
    - A Go [error] result is an [option Error], [None] being [nil].
    - The file system is a finite map from names to files.  Opening a
      missing file fails, creating a protected file fails, a file may carry
      a read fault; writing to and closing an open file succeed. *)

From Stdlib Require Import ZArith Ascii String.
From stdpp Require Import base list gmap strings fin_maps.

Abbreviation gostring := (list ascii) (only parsing).

(** ** Go run-time conventions *)

Inductive Run (A : Type) : Type :=
  | Value (a : A)
  | Panic.
Arguments Value {A} a.
Arguments Panic {A}.

Definition len {A} (l : list A) : Z := Z.of_nat (length l).

(** [l[i]]: the element, or nothing where Go panics. *)
Definition index {A} (l : list A) (i : Z) : option A :=
  if decide (0 ≤ i < len l)%Z then l !! Z.to_nat i else None.

(** [l[i:]]: the slice, or nothing where Go panics. *)
Definition slice_from {A} (l : list A) (i : Z) : option (list A) :=
  if decide (0 ≤ i ≤ len l)%Z then Some (drop (Z.to_nat i) l) else None.

(** [for i := len(l); i <= n; i++ { l = append(l, x) }], as the number of
    iterations it makes. *)
Fixpoint append_n {A} (n : nat) (x : A) (l : list A) : list A :=
  match n with
  | O => l
  | S n' => append_n n' x (l ++ [x])
  end.

Definition grow_to {A} (l : list A) (n : Z) (x : A) : list A :=
  append_n (Z.to_nat (n - len l + 1)) x l.

(** [strconv.IntSize], for a 64 bit platform. *)
Definition IntSize : Z := 64.

(** The conversion [uint(x)] of an unsigned 64 bit integer. *)
Definition uint (x : Z) : Z := x `mod` 2 ^ IntSize.

(** ** Errors (the error taxonomy of the package) *)

Inductive ErrorType : Type :=
  | ErrorTypeParsing
  | ErrorTypeInvalidArgument
  | ErrorTypeNotFound
  | ErrorTypeExists
  | ErrorTypeSaving
  | ErrorTypeLoading.

Record Error : Type := mkError {
  t : ErrorType;
  Source : string;
  Message : string
}.

(** ** Characters and the string functions of the Go library *)

Definition LF : ascii := "010"%char.
Definition CR : ascii := "013"%char.

(** [strings.TrimSpace] on ASCII text: the white space characters are
    tab, line feed, vertical tab, form feed, carriage return and space. *)
Fixpoint TrimLeft (s : gostring) : gostring :=
  match s with
  | [] => []
  | c :: s' => if Ascii.is_space c then TrimLeft s' else s
  end.

Definition TrimRight (s : gostring) : gostring :=
  reverse (TrimLeft (reverse s)).

Definition TrimSpace (s : gostring) : gostring := TrimRight (TrimLeft s).

(** [strings.IndexByte]: the index of the first [c], or [-1]. *)
Fixpoint IndexByte (s : gostring) (c : ascii) : Z :=
  match s with
  | [] => (-1)%Z
  | x :: s' =>
      if decide (x = c) then 0%Z
      else let i := IndexByte s' c in
           if decide (i = -1)%Z then (-1)%Z else (i + 1)%Z
  end.

Fixpoint has_prefix (sep s : gostring) : bool :=
  match sep, s with
  | [], _ => true
  | _ :: _, [] => false
  | a :: sep', b :: s' => bool_decide (a = b) && has_prefix sep' s'
  end.

(** The cutting loop of [strings.Split] for a non-empty separator: the
    leftmost occurrence of [sep] ends the current piece and the scan
    resumes after it ([skip] counts the bytes of that occurrence still to
    pass). *)
Fixpoint split_scan (sep s : gostring) (skip : nat) (cur : gostring)
  : list gostring :=
  match s with
  | [] => [cur]
  | c :: s' =>
      match skip with
      | S k => split_scan sep s' k cur
      | O =>
          if has_prefix sep s
          then cur :: split_scan sep s' (length sep - 1) []
          else split_scan sep s' 0 (cur ++ [c])
      end
  end.

(** [strings.Split(s, sep)]; an empty separator explodes [s] into its
    characters. *)
Definition Split (s sep : gostring) : list gostring :=
  match sep with
  | [] => (λ c, [c]) <$> s
  | _ :: _ => split_scan sep s 0 []
  end.

(** ** Files and the buffered line reader *)

Record File : Type := mkFile {
  content : gostring;
  read_fault : option nat  (* the read, counted from 0, that fails *)
}.

Record FS : Type := mkFS {
  files : gmap gostring File;
  protected : gset gostring
}.

Definition os_Open (fs : FS) (name : gostring) : option File :=
  files fs !! name.

Definition os_Create (fs : FS) (name : gostring) : bool :=
  bool_decide (name ∉ protected fs).

Definition write_file (fs : FS) (name text : gostring) : FS :=
  {| files := <[name := mkFile text None]> (files fs);
     protected := protected fs |}.

(** One call of [ReadBufferedLine] on an emptied buffer: the line put in
    the buffer and the end-of-stream flag, or a read error. *)
Inductive ReadResult : Type :=
  | ReadLine (eof : bool) (data : gostring)
  | ReadFail.

(** [bufio.Reader.ReadLine] drops the line feed and a carriage return
    right before it. *)
Definition drop_cr (line : gostring) : gostring :=
  match reverse line with
  | c :: r => if decide (c = CR) then reverse r else line
  | [] => line
  end.

(** The successive results of [ReadBufferedLine] over the bytes [s], [cur]
    being the bytes of the line under way.  A line feed ends a line; the
    bytes after the last line feed, if any, are a last line; then the
    stream is at its end and the call returns no bytes and [eof]. *)
Fixpoint ReadLines (s cur : gostring) : list ReadResult :=
  match s with
  | [] =>
      match cur with
      | [] => [ReadLine true []]
      | _ :: _ => [ReadLine false cur; ReadLine true []]
      end
  | c :: s' =>
      if decide (c = LF) then ReadLine false (drop_cr cur) :: ReadLines s' []
      else ReadLines s' (cur ++ [c])
  end.

Definition with_fault (fault : option nat) (rs : list ReadResult)
  : list ReadResult :=
  match fault with
  | Some n => if decide (n < length rs) then take n rs ++ [ReadFail] else rs
  | None => rs
  end.

(** What a reader opened on [f] delivers, call after call. *)
Definition NewReader (f : File) : list ReadResult :=
  with_fault (read_fault f) (ReadLines (content f) []).

(** *** ReadBufferedLine over the reads of [bufio.Reader.ReadLine]

    One result of [bufio.Reader.ReadLine]: the bytes, whether they are
    only the beginning of a line that did not fit the reader's buffer,
    and the error, [io.EOF] or another one. *)
Inductive IOError : Type :=
  | EOF
  | ReadError.

Record RawRead : Type := mkRaw {
  raw_line : gostring;
  raw_isPrefix : bool;
  raw_err : option IOError
}.

(** [ReadBufferedLine(r, p)]: the reader is the list of the results its
    next calls of [ReadLine] give (a reader with no result left is at the
    end of its stream), [p] is the buffer.  The result is the pair the
    function returns, the reader and the buffer it leaves. *)
Fixpoint ReadBufferedLine (r : list RawRead) (p : gostring)
  : bool * option IOError * list RawRead * gostring :=
  match r with
  | [] => (true, None, [], p)
  | raw :: r' =>
      match raw_err raw with
      | Some EOF => (true, None, r', p ++ raw_line raw)
      | Some err => (true, Some err, r', p)
      | None =>
          if raw_isPrefix raw then ReadBufferedLine r' (p ++ raw_line raw)
          else (false, None, r', p ++ raw_line raw)
      end
  end.

(** What the loops of [Load] see of a reader: they call
    [ReadBufferedLine] on the emptied buffer until it reports the end of
    the stream or an error. *)
Inductive delivers : list RawRead → list ReadResult → Prop :=
  | delivers_error r err r' p :
      ReadBufferedLine r [] = (true, Some err, r', p) →
      delivers r [ReadFail]
  | delivers_eof r r' p :
      ReadBufferedLine r [] = (true, None, r', p) →
      delivers r [ReadLine true p]
  | delivers_line r r' p rs :
      ReadBufferedLine r [] = (false, None, r', p) →
      delivers r' rs →
      delivers r (ReadLine false p :: rs).

(** The reads of a [bufio.Reader] whose buffer holds every line whole,
    over the bytes [s]: a line for every line feed, without the line feed
    and a carriage return before it, then the bytes after the last line
    feed if there are any; after that the reader is at its end. *)
Fixpoint RawReads (s cur : gostring) : list RawRead :=
  match s with
  | [] =>
      match cur with
      | [] => []
      | _ :: _ => [mkRaw cur false None]
      end
  | c :: s' =>
      if decide (c = LF) then mkRaw (drop_cr cur) false None :: RawReads s' []
      else RawReads s' (cur ++ [c])
  end.

(** ** SpreadsheetDelim *)

Module SpreadsheetDelim.

Record SpreadsheetDelim : Type := mk {
  buffer : Z;
  Filename : gostring;
  delimeter : gostring;
  Data : list (list gostring)
}.

Definition NewSpreadsheetDelim (buffer : Z) (delimeter : gostring)
  : SpreadsheetDelim :=
  mk buffer [] delimeter [].

Definition with_Filename (sd : SpreadsheetDelim) (f : gostring) :=
  mk (buffer sd) f (delimeter sd) (Data sd).

Definition with_Data (sd : SpreadsheetDelim) (d : list (list gostring)) :=
  mk (buffer sd) (Filename sd) (delimeter sd) d.

Definition source : string := "SpreadsheetDelim".

(** The loop [for !eof] of [Load], over the results the reader delivers.
    [continue] re-tests [!eof].  A list of results that ends before the
    end of the stream stands for a reader that is read no further: the
    loop ends there. *)
Fixpoint LoadLoop (delimeter : gostring) (skipCols skipRows : Z)
    (reader : list ReadResult) (skipRowCounter : Z)
    (data : list (list gostring))
  : Run (option Error * list (list gostring)) :=
  match reader with
  | [] => Value (None, data)
  | ReadFail :: _ =>
      Value (Some (mkError ErrorTypeLoading source "Failed to read a new line"),
             data)
  | ReadLine eof buffer :: reader' =>
      let continue counter data :=
        if eof then Value (None, data)
        else LoadLoop delimeter skipCols skipRows reader' counter data in
      if decide (skipRowCounter < skipRows)%Z then
        continue (skipRowCounter + 1)%Z data
      else if decide (len buffer = 0)%Z then
        continue skipRowCounter data
      else
        let newData := Split buffer delimeter in
        if decide (len newData = 0)%Z then
          Value (Some (mkError ErrorTypeParsing source
                   "Non-empty buffer did not produce delimter split values"),
                 data)
        else if decide (len newData ≤ skipCols)%Z then
          continue skipRowCounter data
        else
          match slice_from newData skipCols with
          | None => Panic
          | Some row => continue skipRowCounter (data ++ [row])
          end
  end.

(** [Load] once the file name is settled: open, read, parse. *)
Definition LoadFile (sd : SpreadsheetDelim) (filename : gostring)
    (skipCols skipRows : Z) (fs : FS)
  : Run (option Error * SpreadsheetDelim) :=
  match os_Open fs filename with
  | None =>
      Value (Some (mkError ErrorTypeLoading source "Failed to load file"), sd)
  | Some file =>
      if decide (buffer sd < 0)%Z then Panic  (* make([]byte, 0, sd.buffer) *)
      else
        match LoadLoop (delimeter sd) skipCols skipRows (NewReader file) 0
                (Data sd) with
        | Panic => Panic
        | Value (err, data) => Value (err, with_Data sd data)
        end
  end.

Definition Load (sd : SpreadsheetDelim) (filename : gostring)
    (skipCols skipRows : Z) (fs : FS)
  : Run (option Error * SpreadsheetDelim) :=
  if decide (len filename = 0)%Z then
    if decide (len (Filename sd) = 0)%Z then
      Value (Some (mkError ErrorTypeInvalidArgument source
               "No filename specified to load"), sd)
    else LoadFile sd (Filename sd) skipCols skipRows fs
  else LoadFile (with_Filename sd filename) filename skipCols skipRows fs.

(** The inner loop of [Save]: the cells of a row, the delimiter before
    every cell but the first. *)
Fixpoint write_cols (delimeter : gostring) (i : nat) (row : list gostring)
  : gostring :=
  match row with
  | [] => []
  | col :: row' =>
      (if decide (i ≠ 0) then delimeter else []) ++ col
        ++ write_cols delimeter (S i) row'
  end.

Definition write_row (delimeter : gostring) (row : list gostring) : gostring :=
  write_cols delimeter 0 row ++ [LF].

Definition SaveText (sd : SpreadsheetDelim) : gostring :=
  concat (write_row (delimeter sd) <$> Data sd).

(** [Save] once the file name is settled: create, write every row. *)
Definition SaveFile (sd : SpreadsheetDelim) (filename : gostring) (fs : FS)
  : Run (option Error * SpreadsheetDelim * FS) :=
  if os_Create fs filename then
    Value (None, sd, write_file fs filename (SaveText sd))
  else
    Value (Some (mkError ErrorTypeSaving source
             "Failed to create/open file for writing"), sd, fs).

Definition Save (sd : SpreadsheetDelim) (filename : gostring) (fs : FS)
  : Run (option Error * SpreadsheetDelim * FS) :=
  if decide (len filename = 0)%Z then
    if decide (len (Filename sd) = 0)%Z then
      Value (Some (mkError ErrorTypeInvalidArgument source
               "No filename specified to save"), sd, fs)
    else SaveFile sd (Filename sd) fs
  else SaveFile sd filename fs.

Definition Set_ (sd : SpreadsheetDelim) (row col : Z) (value : gostring)
  : Run (option Error * SpreadsheetDelim) :=
  let data := grow_to (Data sd) row [] in
  match index data row with
  | None => Panic
  | Some r =>
      let r' := grow_to r col [] in
      match index r' col with
      | None => Panic
      | Some _ =>
          Value (None,
                 with_Data sd (<[Z.to_nat row := <[Z.to_nat col := value]> r']> data))
      end
  end.

Definition Get (sd : SpreadsheetDelim) (row col : Z) : Run (gostring * bool) :=
  if (row >=? len (Data sd))%Z then Value ([], false)
  else
    match index (Data sd) row with
    | None => Panic
    | Some r =>
        if (col >=? len r)%Z then Value ([], false)
        else
          match index r col with
          | None => Panic
          | Some v => Value (v, true)
          end
    end.

(** The getters that convert.  The conversions of the Go library
    ([strconv.Atoi], [strconv.ParseUint], [strconv.ParseFloat], the
    conversion to [float32]) and the types of their errors and of the
    floating point numbers are parameters; an [int] and a [uint] are
    integers. *)
Section typed_getters.
Context {ConvErr F32 F64 : Type}.
Variable Atoi : gostring → Z * option ConvErr.
Variable ParseUint : gostring → Z → Z → Z * option ConvErr.
Variable ParseFloat : gostring → Z → F64 * option ConvErr.
Variable float32 : F64 → F32.
Variable zero32 : F32.
Variable zero64 : F64.

Definition GetInt (sd : SpreadsheetDelim) (row col : Z)
  : Run (Z * bool * option ConvErr) :=
  match Get sd row col with
  | Panic => Panic
  | Value (str, ok) =>
      if ok then let '(result, err) := Atoi str in Value (result, true, err)
      else Value (0%Z, false, None)
  end.

Definition GetUint (sd : SpreadsheetDelim) (row col : Z)
  : Run (Z * bool * option ConvErr) :=
  match Get sd row col with
  | Panic => Panic
  | Value (str, ok) =>
      if ok then
        let '(result, err) := ParseUint str 10 IntSize in
        Value (uint result, true, err)
      else Value (0%Z, false, None)
  end.

Definition GetFloat32 (sd : SpreadsheetDelim) (row col : Z)
  : Run (F32 * bool * option ConvErr) :=
  match Get sd row col with
  | Panic => Panic
  | Value (str, ok) =>
      if ok then
        let '(result, err) := ParseFloat str 32 in
        Value (float32 result, true, err)
      else Value (zero32, false, None)
  end.

Definition GetFloat64 (sd : SpreadsheetDelim) (row col : Z)
  : Run (F64 * bool * option ConvErr) :=
  match Get sd row col with
  | Panic => Panic
  | Value (str, ok) =>
      if ok then
        let '(result, err) := ParseFloat str 64 in Value (result, true, err)
      else Value (zero64, false, None)
  end.
End typed_getters.

End SpreadsheetDelim.

(** ** SettingsINI *)

(** [s[lo:hi]]; every use below is within bounds. *)
Definition slice (s : gostring) (lo hi : Z) : gostring :=
  take (Z.to_nat (hi - lo)) (drop (Z.to_nat lo) s).

Module SettingsINI.

Record SettingsINIHeader : Type := mkHeader {
  Values : gmap gostring gostring
}.

Record SettingsINI : Type := mk {
  buffer : Z;
  Filename : gostring;
  Headers : gmap gostring SettingsINIHeader
}.

Definition NewSettingsINI (buffer : Z) : SettingsINI := mk buffer [] ∅.

Definition with_Filename (si : SettingsINI) (f : gostring) :=
  mk (buffer si) f (Headers si).

Definition with_Headers (si : SettingsINI)
    (h : gmap gostring SettingsINIHeader) :=
  mk (buffer si) (Filename si) h.

Definition source : string := "SettingsINI".

Definition parse_error (msg : string) : Error :=
  mkError ErrorTypeParsing source msg.

(** [h.Values[name] = value] through the pointer [h] that the map of
    headers holds under [key]: the header is shared, so the store sees the
    new pair. *)
Definition store_value (headers : gmap gostring SettingsINIHeader)
    (key name value : gostring) : gmap gostring SettingsINIHeader :=
  alter (λ h, mkHeader (<[name := value]> (Values h))) key headers.

(** The body of the loop of [Load] after the line is read: the error that
    ends the load, or the headers and the current header to go on with.
    [currentHeader] is the key under which the current header is stored,
    [None] for the nil pointer. *)
Definition LoadLine (buffer : gostring)
    (headers : gmap gostring SettingsINIHeader)
    (currentHeader : option gostring)
  : Error + gmap gostring SettingsINIHeader * option gostring :=
  let line := TrimSpace buffer in
  if decide (len line = 0)%Z then inr (headers, currentHeader)
  else
    match line with
    | c0 :: c1 :: _ =>                                  (* len(line) >= 2 *)
        if bool_decide (c0 = "/"%char) && bool_decide (c1 = "/"%char) then
          inr (headers, currentHeader)
        else if decide (c0 = "["%char) then
          if decide (last line = Some "]"%char) then
            let headerName := slice line 1 (len line - 1) in
            if decide (len headerName = 0)%Z then
              inl (parse_error "No header name specified between brackets")
            else if decide (is_Some (headers !! headerName)) then
              inl (parse_error "Header name is specified twice")
            else
              inr (<[headerName := mkHeader ∅]> headers, Some headerName)
          else
            inl (parse_error "Invalid header syntax encountered")
        else
          let equal := IndexByte line "="%char in
          if decide (equal = -1)%Z then
            inl (parse_error "Expected to find an equal-character")
          else
            let name := TrimSpace (slice line 0 equal) in
            let value := TrimSpace (slice line (equal + 1) (len line)) in
            if decide (len name = 0)%Z then
              inl (parse_error "Value pair encountered without name")
            else if decide (len value = 0)%Z then
              inl (parse_error "Value pair encountered without value")
            else
              match currentHeader with
              | None =>
                  inr (store_value (<[[] := mkHeader ∅]> headers) [] name value,
                       Some [])
              | Some current =>
                  inr (store_value headers current name value, Some current)
              end
    | _ => inr (headers, currentHeader)                 (* len(line) < 2 *)
    end.

(** The loop [for !eof] of [Load], over the results the reader delivers;
    a list that ends before the end of the stream ends the loop there. *)
Fixpoint LoadLoop (reader : list ReadResult)
    (headers : gmap gostring SettingsINIHeader)
    (currentHeader : option gostring)
  : option Error * gmap gostring SettingsINIHeader :=
  match reader with
  | [] => (None, headers)
  | ReadFail :: _ =>
      (Some (mkError ErrorTypeLoading source "Failed to read new line"), headers)
  | ReadLine eof buffer :: reader' =>
      match LoadLine buffer headers currentHeader with
      | inl err => (Some err, headers)
      | inr (headers', currentHeader') =>
          if eof then (None, headers')
          else LoadLoop reader' headers' currentHeader'
      end
  end.

(** [Load] once the file name is settled: open, clear the store, read. *)
Definition LoadFile (si : SettingsINI) (filename : gostring) (fs : FS)
  : Run (option Error * SettingsINI) :=
  match os_Open fs filename with
  | None =>
      Value (Some (mkError ErrorTypeLoading source "Failed to open the file"),
             si)
  | Some file =>
      if decide (buffer si < 0)%Z then Panic  (* make([]byte, 0, si.buffer) *)
      else
        let '(err, headers) := LoadLoop (NewReader file) ∅ None in
        Value (err, with_Headers si headers)
  end.

Definition Load (si : SettingsINI) (filename : gostring) (fs : FS)
  : Run (option Error * SettingsINI) :=
  if decide (len filename = 0)%Z then
    if decide (len (Filename si) = 0)%Z then
      Value (Some (mkError ErrorTypeInvalidArgument source
               "Internal and argument filename are empty"), si)
    else LoadFile si (Filename si) fs
  else LoadFile (with_Filename si filename) filename fs.

(** [for k, v := range m]: every entry once, in an order that Go leaves
    open; [order] is one such order. *)
Definition ranges {V} (m : gmap gostring V) (order : list (gostring * V))
  : Prop :=
  order ≡ₚ map_to_list m.

Definition write_value (kv : gostring * gostring) : gostring :=
  kv.1 ++ [" "; "="; " "]%char ++ kv.2 ++ [LF].

Definition write_header (headerKey : gostring) : gostring :=
  ["["%char] ++ headerKey ++ ["]"%char; LF].

(** The text the loop over [header.Values] writes, for some order. *)
Inductive SaveValues (header : SettingsINIHeader) : gostring → Prop :=
  | SaveValues_range order :
      ranges (Values header) order →
      SaveValues header (concat (write_value <$> order)).

(** The text the loop over [si.Headers] writes, given the order it
    takes; the header without a name is passed over. *)
Inductive SaveHeaders : list (gostring * SettingsINIHeader) → gostring → Prop :=
  | SaveHeaders_end : SaveHeaders [] []
  | SaveHeaders_unnamed headerKey header order out :
      len headerKey = 0%Z →
      SaveHeaders order out →
      SaveHeaders ((headerKey, header) :: order) out
  | SaveHeaders_named headerKey header order body out :
      len headerKey ≠ 0%Z →
      SaveValues header body →
      SaveHeaders order out →
      SaveHeaders ((headerKey, header) :: order)
        (write_header headerKey ++ body ++ out).

(** The whole text of [Save]: the pairs without a header first. *)
Inductive SaveText (si : SettingsINI) : gostring → Prop :=
  | SaveText_written headerless order headered :
      match Headers si !! [] with
      | Some header => SaveValues header headerless
      | None => headerless = []
      end →
      ranges (Headers si) order →
      SaveHeaders order headered →
      SaveText si (headerless ++ headered).

(** [Save] once the file name is settled. *)
Inductive SaveFile (si : SettingsINI) (filename : gostring) (fs : FS)
  : option Error * SettingsINI * FS → Prop :=
  | SaveFile_refused :
      os_Create fs filename = false →
      SaveFile si filename fs
        (Some (mkError ErrorTypeSaving source "Failed to open file for writing"),
         si, fs)
  | SaveFile_written text :
      os_Create fs filename = true →
      SaveText si text →
      SaveFile si filename fs (None, si, write_file fs filename text).

(** [Save si filename fs r]: the call can return [r]. *)
Definition Save (si : SettingsINI) (filename : gostring) (fs : FS)
    (r : option Error * SettingsINI * FS) : Prop :=
  if decide (len filename = 0)%Z then
    if decide (len (Filename si) = 0)%Z then
      r = (Some (mkError ErrorTypeInvalidArgument source
             "Internal and argument filenames are empty"), si, fs)
    else SaveFile si (Filename si) fs r
  else SaveFile si filename fs r.

Definition HeaderExists (si : SettingsINI) (header : gostring) : bool :=
  bool_decide (is_Some (Headers si !! header)).

Definition ValueExists (si : SettingsINI) (header name : gostring) : bool :=
  match Headers si !! header with
  | None => false
  | Some h => bool_decide (is_Some (Values h !! name))
  end.

Definition Add (si : SettingsINI) (header name value : gostring)
  : option Error * SettingsINI :=
  let '(h, headers) :=
    match Headers si !! header with
    | Some h => (h, Headers si)
    | None => (mkHeader ∅, <[header := mkHeader ∅]> (Headers si))
    end in
  match Values h !! name with
  | Some _ =>
      (Some (mkError ErrorTypeExists source
               "Value pair already exists in the specified header"),
       with_Headers si headers)
  | None => (None, with_Headers si (store_value headers header name value))
  end.

Definition Set_ (si : SettingsINI) (header name value : gostring)
  : option Error * SettingsINI :=
  match Headers si !! header with
  | None =>
      (Some (mkError ErrorTypeNotFound source
               "Could not find header while setting value"), si)
  | Some h =>
      match Values h !! name with
      | None =>
          (Some (mkError ErrorTypeNotFound source
                   "Could not find value pair while setting value"), si)
      | Some _ =>
          (None, with_Headers si (store_value (Headers si) header name value))
      end
  end.

Definition Get (si : SettingsINI) (header name : gostring) : gostring * bool :=
  match Headers si !! header with
  | None => ([], false)
  | Some h =>
      match Values h !! name with
      | Some result => (result, true)
      | None => ([], false)
      end
  end.

(** The getters that convert, over the conversions of the Go library as
    for [SpreadsheetDelim]. *)
Section typed_getters.
Context {ConvErr F32 F64 : Type}.
Variable Atoi : gostring → Z * option ConvErr.
Variable ParseUint : gostring → Z → Z → Z * option ConvErr.
Variable ParseFloat : gostring → Z → F64 * option ConvErr.
Variable float32 : F64 → F32.
Variable zero32 : F32.
Variable zero64 : F64.

Definition GetInt (si : SettingsINI) (header name : gostring)
  : Z * bool * option ConvErr :=
  let '(str, ok) := Get si header name in
  if ok then let '(result, err) := Atoi str in (result, true, err)
  else (0%Z, false, None).

Definition GetUint (si : SettingsINI) (header name : gostring)
  : Z * bool * option ConvErr :=
  let '(str, ok) := Get si header name in
  if ok then
    let '(result, err) := ParseUint str 10 IntSize in (uint result, true, err)
  else (0%Z, false, None).

Definition GetFloat32 (si : SettingsINI) (header name : gostring)
  : F32 * bool * option ConvErr :=
  let '(str, ok) := Get si header name in
  if ok then let '(result, err) := ParseFloat str 32 in (float32 result, true, err)
  else (zero32, false, None).

Definition GetFloat64 (si : SettingsINI) (header name : gostring)
  : F64 * bool * option ConvErr :=
  let '(str, ok) := Get si header name in
  if ok then let '(result, err) := ParseFloat str 64 in (result, true, err)
  else (zero64, false, None).
End typed_getters.

End SettingsINI.

(** ** Notions the properties are stated with *)

(** The cell of a table at a position, if the position lies in it. *)
Definition cell (d : list (list gostring)) (i j : nat) : option gostring :=
  d !! i ≫= (.!! j).



(** The specification of [SpreadsheetDelim.Load] in its own words: an
    empty line makes no row; another line is split on the delimiter, is
    discarded if that yields at most [skipCols] cells, and otherwise makes
    the row of the cells from index [skipCols] onward.  The first
    [skipRows] lines are discarded whatever they hold. *)
Definition spec_row (delimeter : gostring) (skipCols : Z) (line : gostring)
  : option (list gostring) :=
  if decide (line = []) then None
  else
    let cells := Split line delimeter in
    if decide (len cells ≤ skipCols)%Z then None
    else Some (drop (Z.to_nat skipCols) cells).


(** The value stored under a header and a name, as [SettingsINI.Get]
    reads it. *)
Definition find_value (headers : gmap gostring SettingsINI.SettingsINIHeader)
    (header name : gostring) : option gostring :=
  headers !! header ≫= λ h, SettingsINI.Values h !! name.

(** A string that neither begins nor ends with white space. *)
Definition no_outer_space (s : gostring) : Prop :=
  (∀ c, head s = Some c → Ascii.is_space c = false) ∧
  (∀ c, last s = Some c → Ascii.is_space c = false).



(** A name that a saved file gives back: not empty, no outer white
    space, no line feed, no equal sign, and not begun like a header or a
    comment. *)
Definition valid_key (k : gostring) : Prop :=
  k ≠ [] ∧ no_outer_space k ∧ (LF ∉ k) ∧ ("="%char ∉ k) ∧
  head k ≠ Some "["%char ∧
  ¬ ∃ rest, k = "/"%char :: "/"%char :: rest.

(** A value that a saved file gives back. *)
Definition valid_value (v : gostring) : Prop :=
  v ≠ [] ∧ no_outer_space v ∧ (LF ∉ v).

(** A store that a saved file gives back: header names without line
    feed, valid names and values. *)
Definition valid_store (headers : gmap gostring SettingsINI.SettingsINIHeader)
  : Prop :=
  ∀ header h,
    headers !! header = Some h →
    (LF ∉ header) ∧
    ∀ name value,
      SettingsINI.Values h !! name = Some value →
      valid_key name ∧ valid_value value.








(** The row of a table at an index and the cell at a position, empty
    where the table has none: what a table holds is its number of rows,
    the lengths of its rows and its cells. *)
Definition row_at (d : list (list gostring)) (i : nat) : list gostring :=
  default [] (d !! i).

Definition cell_at (d : list (list gostring)) (i j : nat) : gostring :=
  default [] (row_at d i !! j).

(** A string literal as a Go string. *)
Definition bytes (s : string) : gostring := list_ascii_of_string s.

(** *** Errors as text

    [ErrorType] is a byte; its constants count from 0, and
    [ErrorTypeTotal], their number, is no kind of error. *)
Definition ErrorType_byte (et : ErrorType) : Z :=
  match et with
  | ErrorTypeParsing => 0
  | ErrorTypeInvalidArgument => 1
  | ErrorTypeNotFound => 2
  | ErrorTypeExists => 3
  | ErrorTypeSaving => 4
  | ErrorTypeLoading => 5
  end.

Definition ErrorTypeTotal : Z := 6.

(** [ErrorType.String], on any byte. *)
Definition ErrorType_String (et : Z) : gostring :=
  if decide (et = ErrorType_byte ErrorTypeParsing) then bytes "Parsing Error"
  else if decide (et = ErrorType_byte ErrorTypeInvalidArgument) then
    bytes "Invalid Argument"
  else if decide (et = ErrorType_byte ErrorTypeNotFound) then bytes "Not Found"
  else if decide (et = ErrorType_byte ErrorTypeExists) then bytes "Already Exists"
  else if decide (et = ErrorType_byte ErrorTypeSaving) then bytes "Saving Error"
  else if decide (et = ErrorType_byte ErrorTypeLoading) then bytes "Loading Error"
  else bytes "UNKNOWN".

(** [Error.Error]. *)
Definition Error_Error (e : Error) : gostring :=
  (((ErrorType_String (ErrorType_byte (t e)) ++ bytes "[") ++ bytes (Source e))
     ++ bytes "]:") ++ bytes (Message e).

(** What a getter that converts returns for a text that was found or
    not: the conversion of a text found, with its error if it fails, and
    the zero value, unconverted, for none. *)
Definition typed {A E : Type} (zero : A) (convert : gostring → A * option E)
    (found : option gostring) : A * bool * option E :=
  match found with
  | Some str => ((convert str).1, true, (convert str).2)
  | None => (zero, false, None)
  end.

(** Closes a goal [c ∉ l] for a character and a string that are both
    given in full. *)
Ltac absent :=
  let H := fresh in
  intros H;
  repeat (apply elem_of_cons in H as [H|H]; [discriminate H|]);
  by apply elem_of_nil in H.

(** * Properties *)

(** ** Run-time conventions *)

Section runtime.
Context {A : Type}.
Implicit Types (l : list A) (x : A).

Lemma len_nonneg l : (0 ≤ len l)%Z.
Proof. unfold len. lia. Qed.

Lemma len_0 l : len l = 0%Z ↔ l = [].
Proof. unfold len. destruct l; simpl; split; intros; (done || lia). Qed.


Lemma append_n_replicate n x l : append_n n x l = l ++ replicate n x.
Proof.
  revert l. induction n as [|n IH]; intros l; simpl.
  - by rewrite app_nil_r.
  - by rewrite IH, <- app_assoc.
Qed.

Lemma grow_to_replicate l n x :
  grow_to l n x = l ++ replicate (Z.to_nat (n - len l + 1)) x.
Proof. apply append_n_replicate. Qed.

Lemma len_grow_to l n x : (0 ≤ n)%Z → (n + 1 ≤ len (grow_to l n x))%Z.
Proof.
  intros Hn. rewrite grow_to_replicate. unfold len.
  rewrite length_app, length_replicate. lia.
Qed.

Lemma index_Some l i y :
  index l i = Some y ↔ (0 ≤ i)%Z ∧ l !! Z.to_nat i = Some y.
Proof.
  unfold index, len. case_decide as Hi; split.
  - intros ?. split; [lia | done].
  - by intros [_ ?].
  - done.
  - intros [? Hl]. apply lookup_lt_Some in Hl. lia.
Qed.

Lemma index_in_range l i :
  (0 ≤ i < len l)%Z → ∃ y, index l i = Some y ∧ l !! Z.to_nat i = Some y.
Proof.
  intros Hi. unfold index. rewrite decide_True by done.
  destruct (lookup_lt_is_Some_2 l (Z.to_nat i)) as [y Hy].
  { unfold len in Hi. lia. }
  eauto.
Qed.

Lemma index_negative l i : (i < 0)%Z → index l i = None.
Proof. intros Hi. unfold index. rewrite decide_False; [done | lia]. Qed.
End runtime.

(** ** SpreadsheetDelim: Get and Set *)

Section table_access.
Import SpreadsheetDelim.
Implicit Types (sd : SpreadsheetDelim) (row col : Z) (v : gostring).

(** Inside the table [Get] finds the cell. *)
Lemma Get_in_bounds sd row col v :
  (0 ≤ row)%Z → (0 ≤ col)%Z →
  cell (Data sd) (Z.to_nat row) (Z.to_nat col) = Some v →
  Get sd row col = Value (v, true).
Proof.
  intros Hr Hc. unfold cell, Get.
  destruct (Data sd !! Z.to_nat row) as [r|] eqn:Hrow; simpl; [|done].
  intros Hcell.
  pose proof (lookup_lt_Some _ _ _ Hrow) as Hlr.
  pose proof (lookup_lt_Some _ _ _ Hcell) as Hlc.
  destruct (Z.geb_spec row (len (Data sd))) as [Hge|_].
  { unfold len in Hge. lia. }
  rewrite (proj2 (index_Some _ _ r)) by done.
  destruct (Z.geb_spec col (len r)) as [Hge|_].
  { unfold len in Hge. lia. }
  by rewrite (proj2 (index_Some _ _ v)).
Qed.

(** At or past the end of the rows, or of the row, and at no negative
    coordinate, [Get] answers not found with the empty string. *)
Lemma Get_beyond_bounds sd row col :
  (0 ≤ row)%Z → (0 ≤ col)%Z →
  cell (Data sd) (Z.to_nat row) (Z.to_nat col) = None →
  Get sd row col = Value ([], false).
Proof.
  intros Hr Hc. unfold cell, Get.
  destruct (Z.geb_spec row (len (Data sd))) as [|Hlt]; [done|].
  destruct (index_in_range (Data sd) row) as (r & -> & ->); [lia|]. simpl.
  intros Hcell. apply lookup_ge_None in Hcell.
  destruct (Z.geb_spec col (len r)) as [|Hlt']; [done|].
  unfold len in Hlt'. lia.
Qed.

(** A negative row reaches the indexing [sd.Data[row]]. *)
Lemma Get_negative_row sd row col : (row < 0)%Z → Get sd row col = Panic.
Proof.
  intros Hr. unfold Get.
  destruct (Z.geb_spec row (len (Data sd))) as [Hge|_].
  { pose proof (len_nonneg (Data sd)). lia. }
  by rewrite index_negative.
Qed.

(** A negative column in an existing row reaches [sd.Data[row][col]]. *)
Lemma Get_negative_col sd row col :
  (0 ≤ row < len (Data sd))%Z → (col < 0)%Z → Get sd row col = Panic.
Proof.
  intros Hr Hc. unfold Get.
  destruct (Z.geb_spec row (len (Data sd))) as [Hge|_]; [lia|].
  destruct (index_in_range (Data sd) row) as (r & -> & _); [done|].
  destruct (Z.geb_spec col (len r)) as [Hge|_].
  { pose proof (len_nonneg r). lia. }
  by rewrite index_negative.
Qed.

Lemma Set_negative_row sd row col v : (row < 0)%Z → Set_ sd row col v = Panic.
Proof. intros Hr. unfold Set_. by rewrite index_negative. Qed.
End table_access.

Section table_set.
Import SpreadsheetDelim.
Implicit Types (sd : SpreadsheetDelim) (row col : Z) (v : gostring).

(** What [Set_] leaves behind at non-negative coordinates: the rows
    grown with empty rows, the target row grown with empty cells, the
    value stored. *)
Lemma Set_value sd row col v :
  (0 ≤ row)%Z → (0 ≤ col)%Z →
  ∃ r,
    grow_to (Data sd) row [] !! Z.to_nat row = Some r ∧
    Set_ sd row col v =
      Value (None,
             with_Data sd
               (<[Z.to_nat row := <[Z.to_nat col := v]> (grow_to r col [])]>
                  (grow_to (Data sd) row []))).
Proof.
  intros Hr Hc. unfold Set_.
  pose proof (len_grow_to (Data sd) row [] Hr) as Hlen.
  destruct (index_in_range (grow_to (Data sd) row []) row) as (r & -> & Hrow);
    [lia|].
  pose proof (len_grow_to r col [] Hc) as Hlen'.
  destruct (index_in_range (grow_to r col []) col) as (c & -> & _); [lia|].
  eauto.
Qed.

(** The row that [Set_] finds at [row] is the one that was there, or a
    new empty row. *)
Lemma grown_row sd (i : nat) r n :
  grow_to (Data sd) n [] !! i = Some r →
  Data sd !! i = Some r ∨ (length (Data sd) ≤ i ∧ r = []).
Proof.
  rewrite grow_to_replicate. intros Hr.
  apply lookup_app_Some in Hr as [?|[? Hr]]; [by left|].
  apply lookup_replicate in Hr as [-> _]. by right.
Qed.

Lemma grown_cell (r : list gostring) (j : nat) x n :
  grow_to r n [] !! j = Some x →
  r !! j = Some x ∨ (length r ≤ j ∧ x = []).
Proof.
  rewrite grow_to_replicate. intros Hr.
  apply lookup_app_Some in Hr as [?|[? Hr]]; [by left|].
  apply lookup_replicate in Hr as [-> _]. by right.
Qed.
End table_set.

(** C7, as amended.  For every table and every row ≥ 0, col ≥ 0 and
    value v, Set(row, col, v) returns no error; afterwards the table has
    at least row+1 rows, the target row has at least col+1 cells, cell
    (row, col) equals v ([Get] finds it), every cell that did not exist
    before, other than the target, is the empty string, and every cell
    that existed before, other than the target, is unchanged. *)
Theorem Set_extends_and_assigns
    (sd : SpreadsheetDelim.SpreadsheetDelim) (row col : Z) (v : gostring) :
  (0 ≤ row)%Z → (0 ≤ col)%Z →
  ∃ sd' r,
    SpreadsheetDelim.Set_ sd row col v = Value (None, sd') ∧
    (row + 1 ≤ len (SpreadsheetDelim.Data sd'))%Z ∧
    SpreadsheetDelim.Data sd' !! Z.to_nat row = Some r ∧
    (col + 1 ≤ len r)%Z ∧
    r !! Z.to_nat col = Some v ∧
    SpreadsheetDelim.Get sd' row col = Value (v, true) ∧
    (∀ i j x,
        cell (SpreadsheetDelim.Data sd') i j = Some x →
        cell (SpreadsheetDelim.Data sd) i j = None →
        (i, j) ≠ (Z.to_nat row, Z.to_nat col) → x = []) ∧
    (∀ i j x,
        cell (SpreadsheetDelim.Data sd) i j = Some x →
        (i, j) ≠ (Z.to_nat row, Z.to_nat col) →
        cell (SpreadsheetDelim.Data sd') i j = Some x).
Proof.
  intros Hr Hc.
  destruct (Set_value sd row col v Hr Hc) as (r & Hrow & ->).
  pose proof (len_grow_to (SpreadsheetDelim.Data sd) row [] Hr) as Hlen.
  pose proof (len_grow_to r col [] Hc) as Hlen'.
  set (data := grow_to (SpreadsheetDelim.Data sd) row []) in *.
  set (r' := grow_to r col []) in *.
  assert (Hrow' : <[Z.to_nat row := <[Z.to_nat col := v]> r']> data
                    !! Z.to_nat row = Some (<[Z.to_nat col := v]> r')).
  { apply list_lookup_insert_eq. unfold len in Hlen. lia. }
  assert (Hcol' : <[Z.to_nat col := v]> r' !! Z.to_nat col = Some v).
  { apply list_lookup_insert_eq. unfold len in Hlen'. lia. }
  eexists _, _. split; [done|]. simpl.
  split; [unfold len in *; rewrite length_insert; lia|].
  split; [done|].
  split; [unfold len in *; rewrite length_insert; lia|].
  split; [done|].
  split.
  { apply Get_in_bounds; [done..|]. unfold cell. simpl. by rewrite Hrow'. }
  split.
  - intros i j x Hnew Hold Hij. unfold cell in *.
    destruct (decide (i = Z.to_nat row)) as [->|Hi].
    + rewrite Hrow' in Hnew. simpl in Hnew.
      assert (j ≠ Z.to_nat col) as Hj by congruence.
      rewrite list_lookup_insert_ne in Hnew by done.
      apply grown_cell in Hnew as [Hx|[_ ?]]; [|done].
      apply grown_row in Hrow as [Hrow|[_ ->]]; [|done].
      rewrite Hrow in Hold. simpl in Hold. congruence.
    + rewrite list_lookup_insert_ne in Hnew by done.
      destruct (data !! i) as [ri|] eqn:Hri; [|done]. simpl in Hnew.
      apply grown_row in Hri as [Hri|[_ ->]]; [|done].
      rewrite Hri in Hold. simpl in Hold. congruence.
  - intros i j x Hold Hij. unfold cell in *.
    destruct (SpreadsheetDelim.Data sd !! i) as [ri|] eqn:Hri; [|done].
    simpl in Hold.
    assert (data !! i = Some ri) as Hri'.
    { unfold data. rewrite grow_to_replicate. by apply lookup_app_l_Some. }
    destruct (decide (i = Z.to_nat row)) as [->|Hi].
    + rewrite Hrow'. simpl.
      assert (j ≠ Z.to_nat col) as Hj by congruence.
      rewrite list_lookup_insert_ne by done.
      assert (ri = r) as -> by congruence.
      unfold r'. rewrite grow_to_replicate. by apply lookup_app_l_Some.
    + rewrite list_lookup_insert_ne by done. by rewrite Hri'.
Qed.

(** C7, at an instance. *)
Lemma Set_extends_and_assigns_witness :
  ∃ sd' r,
    SpreadsheetDelim.Set_ (SpreadsheetDelim.NewSpreadsheetDelim 16 (bytes ","))
      2 3 (bytes "v") = Value (None, sd') ∧
    (2 + 1 ≤ len (SpreadsheetDelim.Data sd'))%Z ∧
    SpreadsheetDelim.Data sd' !! Z.to_nat 2 = Some r ∧
    (3 + 1 ≤ len r)%Z ∧
    r !! Z.to_nat 3 = Some (bytes "v") ∧
    SpreadsheetDelim.Get sd' 2 3 = Value (bytes "v", true) ∧
    (∀ i j x,
        cell (SpreadsheetDelim.Data sd') i j = Some x →
        cell [] i j = None →
        (i, j) ≠ (Z.to_nat 2, Z.to_nat 3) → x = []) ∧
    (∀ i j x,
        cell [] i j = Some x →
        (i, j) ≠ (Z.to_nat 2, Z.to_nat 3) →
        cell (SpreadsheetDelim.Data sd') i j = Some x).
Proof.
  apply (Set_extends_and_assigns
           (SpreadsheetDelim.NewSpreadsheetDelim 16 (bytes ",")) 2 3 (bytes "v"));
    lia.
Defined.

(** C7, as stated, fails at a negative row: on the empty table
    Set(-1, 0, "v") leaves the loop over the rows at once and indexes
    [sd.Data[-1]], which is a run-time fault and no table at all. *)
Lemma Set_negative_row_faults :
  SpreadsheetDelim.Set_ (SpreadsheetDelim.NewSpreadsheetDelim 16 (bytes ","))
    (-1) 0 (bytes "v") = Panic ∧
  ¬ ∃ sd',
      SpreadsheetDelim.Set_ (SpreadsheetDelim.NewSpreadsheetDelim 16 (bytes ","))
        (-1) 0 (bytes "v") = Value (None, sd').
Proof. split; [reflexivity|]. intros [sd' Hsd']. discriminate Hsd'. Qed.

(** C6.  [Get] at a negative coordinate does not answer not found: with
    one cell in the table, Get(-1, 0) passes the test [row >= len(sd.Data)]
    and faults on [sd.Data[-1]], and Get(0, -1) passes both tests and
    faults on [sd.Data[0][-1]]. *)
Theorem Get_negative_coordinate_faults :
  ∃ sd,
    SpreadsheetDelim.Set_ (SpreadsheetDelim.NewSpreadsheetDelim 16 (bytes ","))
      0 0 (bytes "a") = Value (None, sd) ∧
    SpreadsheetDelim.Get sd 0 0 = Value (bytes "a", true) ∧
    SpreadsheetDelim.Get sd (-1) 0 = Panic ∧
    SpreadsheetDelim.Get sd 0 (-1) = Panic.
Proof. eexists. repeat split. Qed.

(** ** The line reader *)

Section reader.
Implicit Types (s cur line : gostring) (ls : list gostring).



Lemma split_scan_nonempty sep s skip cur : split_scan sep s skip cur ≠ [].
Proof.
  revert skip cur. induction s as [|c s IH]; intros skip cur; simpl; [done|].
  destruct skip; [|apply IH]. destruct (has_prefix sep (c :: s)); [done|].
  apply IH.
Qed.

(** The test [len(newData) == 0] of [Load] never holds on a line with
    data. *)
Lemma Split_nonempty s sep : s ≠ [] → Split s sep ≠ [].
Proof.
  intros Hs. destruct sep; simpl.
  - by destruct s.
  - apply split_scan_nonempty.
Qed.
End reader.

(** ** SpreadsheetDelim: Load *)

Section table_load.
Import SpreadsheetDelim.
Implicit Types (sd : SpreadsheetDelim) (ls : list gostring).




End table_load.



(** C3.  [Load] never empties [sd.Data]: it appends the rows of the file
    to the rows already there.  A table holding the row ["x"] holds the
    rows ["x"] and ["a"] after a successful load of the text "a\n", and
    loading that text once more holds ["x"], ["a"] and ["a"]. *)
Theorem Load_keeps_earlier_rows :
  let fs := mkFS {[ bytes "f" := mkFile (bytes "a" ++ [LF]) None ]} ∅ in
  ∃ sd1 sd2 sd3,
    SpreadsheetDelim.Set_ (SpreadsheetDelim.NewSpreadsheetDelim 16 (bytes ","))
      0 0 (bytes "x") = Value (None, sd1) ∧
    SpreadsheetDelim.Load sd1 (bytes "f") 0 0 fs = Value (None, sd2) ∧
    SpreadsheetDelim.Data sd2 = [[bytes "x"]; [bytes "a"]] ∧
    SpreadsheetDelim.Load sd2 [] 0 0 fs = Value (None, sd3) ∧
    SpreadsheetDelim.Data sd3 = [[bytes "x"]; [bytes "a"]; [bytes "a"]].
Proof. eexists _, _, _. repeat split; by vm_compute. Qed.

(** ** SettingsINI: Add, Set and Get *)

Section settings_access.
Import SettingsINI.
Implicit Types (si : SettingsINI) (header name value : gostring).
Implicit Types (headers : gmap gostring SettingsINIHeader).

Lemma with_Headers_same si : with_Headers si (Headers si) = si.
Proof. by destruct si. Qed.

Lemma ValueExists_Get si header name :
  ValueExists si header name = (Get si header name).2.
Proof.
  unfold ValueExists, Get.
  destruct (Headers si !! header) as [h|]; [|done].
  destruct (Values h !! name) eqn:Hv; simpl;
    first [done | apply bool_decide_eq_false_2; by intros [??]].
Qed.

Lemma Get_find si header name :
  Get si header name =
  match find_value (Headers si) header name with
  | Some result => (result, true)
  | None => ([], false)
  end.
Proof.
  unfold Get, find_value. destruct (Headers si !! header) as [h|]; simpl; [|done].
  by destruct (Values h !! name).
Qed.

Lemma find_store_value headers key k v header name :
  is_Some (headers !! key) →
  find_value (store_value headers key k v) header name =
  if decide ((key, k) = (header, name)) then Some v
  else find_value headers header name.
Proof.
  intros [h Hh]. unfold find_value, store_value.
  destruct (decide (key = header)) as [<-|Hne].
  - rewrite lookup_alter_eq, Hh. simpl.
    destruct (decide (k = name)) as [<-|Hk].
    + by rewrite decide_True, lookup_insert_eq.
    + rewrite decide_False by congruence. by rewrite lookup_insert_ne.
  - rewrite lookup_alter_ne by done. by rewrite decide_False by congruence.
Qed.

Lemma store_value_lookup_ne headers key k v header :
  key ≠ header → store_value headers key k v !! header = headers !! header.
Proof. intros. unfold store_value. by rewrite lookup_alter_ne. Qed.

Lemma store_value_is_Some headers key k v header :
  is_Some (store_value headers key k v !! header) ↔
  is_Some (headers !! header).
Proof.
  unfold store_value. destruct (decide (key = header)) as [<-|].
  - rewrite lookup_alter_eq. by rewrite fmap_is_Some.
  - by rewrite lookup_alter_ne.
Qed.
End settings_access.

(** C8.  For every store: [Add] on a pair that holds a value fails with
    AlreadyExists and returns the store as it was; [Set] on an absent
    header or an absent name fails with NotFound and returns the store as
    it was, so it creates neither header nor pair; otherwise [Add]
    inserts the pair, creating the header if need be, and [Set]
    overwrites it, and in both cases every other pair reads as before. *)
Theorem Add_and_Set_contract
    (si : SettingsINI.SettingsINI) (header name value : gostring) :
  (SettingsINI.ValueExists si header name = true →
     SettingsINI.Add si header name value =
       (Some (mkError ErrorTypeExists "SettingsINI"
                "Value pair already exists in the specified header"), si) ∧
     ∃ si',
       SettingsINI.Set_ si header name value = (None, si') ∧
       SettingsINI.Get si' header name = (value, true) ∧
       (∀ h n, (h, n) ≠ (header, name) →
               SettingsINI.Get si' h n = SettingsINI.Get si h n) ∧
       (∀ h, SettingsINI.HeaderExists si' h = SettingsINI.HeaderExists si h)) ∧
  (SettingsINI.ValueExists si header name = false →
     (∃ e, SettingsINI.Set_ si header name value = (Some e, si) ∧
           t e = ErrorTypeNotFound) ∧
     ∃ si',
       SettingsINI.Add si header name value = (None, si') ∧
       SettingsINI.Get si' header name = (value, true) ∧
       SettingsINI.HeaderExists si' header = true ∧
       (∀ h n, (h, n) ≠ (header, name) →
               SettingsINI.Get si' h n = SettingsINI.Get si h n) ∧
       (∀ h, h ≠ header →
             SettingsINI.HeaderExists si' h = SettingsINI.HeaderExists si h)).
Proof.
  split; intros Hexists.
  - unfold SettingsINI.ValueExists in Hexists.
    destruct (SettingsINI.Headers si !! header) as [hd|] eqn:Hhd; [|done].
    apply bool_decide_eq_true_1 in Hexists as [old Hold].
    split.
    { unfold SettingsINI.Add. rewrite Hhd, Hold.
      by rewrite with_Headers_same. }
    eexists. split.
    { unfold SettingsINI.Set_. by rewrite Hhd, Hold. }
    split; [|split].
    + rewrite Get_find. simpl. rewrite find_store_value by eauto.
      by rewrite decide_True.
    + intros h n Hne. rewrite !Get_find. simpl.
      rewrite find_store_value by eauto. by rewrite decide_False.
    + intros h. unfold SettingsINI.HeaderExists. simpl.
      apply bool_decide_ext, store_value_is_Some.
  - split.
    { unfold SettingsINI.ValueExists in Hexists. unfold SettingsINI.Set_.
      destruct (SettingsINI.Headers si !! header) as [hd|] eqn:Hhd;
        [|by eexists].
      apply bool_decide_eq_false_1 in Hexists.
      destruct (SettingsINI.Values hd !! name) eqn:Hv; [|by eexists].
      by destruct Hexists. }
    unfold SettingsINI.Add.
    destruct (SettingsINI.Headers si !! header) as [hd|] eqn:Hhd.
    + unfold SettingsINI.ValueExists in Hexists. rewrite Hhd in Hexists.
      apply bool_decide_eq_false_1 in Hexists.
      destruct (SettingsINI.Values hd !! name) eqn:Hv; [by destruct Hexists|].
      eexists. split; [done|]. split; [|split; [|split]].
      * rewrite Get_find. simpl. rewrite find_store_value by eauto.
        by rewrite decide_True.
      * unfold SettingsINI.HeaderExists. simpl.
        apply bool_decide_eq_true_2, store_value_is_Some. eauto.
      * intros h n Hne. rewrite !Get_find. simpl.
        rewrite find_store_value by eauto. by rewrite decide_False.
      * intros h Hne. unfold SettingsINI.HeaderExists. simpl.
        apply bool_decide_ext, store_value_is_Some.
    + simpl. rewrite lookup_empty.
      eexists. split; [done|]. split; [|split; [|split]].
      * rewrite Get_find. simpl.
        rewrite find_store_value by (rewrite lookup_insert_eq; eauto).
        by rewrite decide_True.
      * unfold SettingsINI.HeaderExists. simpl.
        apply bool_decide_eq_true_2, store_value_is_Some.
        rewrite lookup_insert_eq. eauto.
      * intros h n Hne. rewrite !Get_find. simpl.
        rewrite find_store_value by (rewrite lookup_insert_eq; eauto).
        rewrite decide_False by done. unfold find_value.
        destruct (decide (header = h)) as [<-|Hh].
        -- by rewrite lookup_insert_eq, Hhd.
        -- by rewrite lookup_insert_ne.
      * intros h Hne. unfold SettingsINI.HeaderExists. simpl.
        apply bool_decide_ext. rewrite store_value_is_Some.
        by rewrite lookup_insert_ne.
Qed.

(** C8, at an instance: the empty store, where the pair is absent, and
    the store after the pair is added, where it is present. *)
Lemma Add_and_Set_contract_witness :
  let si0 := SettingsINI.NewSettingsINI 16 in
  let si1 := (SettingsINI.Add si0 (bytes "H") (bytes "k") (bytes "v")).2 in
  (SettingsINI.Add si1 (bytes "H") (bytes "k") (bytes "w") =
     (Some (mkError ErrorTypeExists "SettingsINI"
              "Value pair already exists in the specified header"), si1) ∧
   ∃ si',
     SettingsINI.Set_ si1 (bytes "H") (bytes "k") (bytes "w") = (None, si') ∧
     SettingsINI.Get si' (bytes "H") (bytes "k") = (bytes "w", true) ∧
     (∀ h n, (h, n) ≠ (bytes "H", bytes "k") →
             SettingsINI.Get si' h n = SettingsINI.Get si1 h n) ∧
     (∀ h, SettingsINI.HeaderExists si' h = SettingsINI.HeaderExists si1 h)) ∧
  ((∃ e, SettingsINI.Set_ si0 (bytes "H") (bytes "k") (bytes "v") = (Some e, si0) ∧
         t e = ErrorTypeNotFound) ∧
   ∃ si',
     SettingsINI.Add si0 (bytes "H") (bytes "k") (bytes "v") = (None, si') ∧
     SettingsINI.Get si' (bytes "H") (bytes "k") = (bytes "v", true) ∧
     SettingsINI.HeaderExists si' (bytes "H") = true ∧
     (∀ h n, (h, n) ≠ (bytes "H", bytes "k") →
             SettingsINI.Get si' h n = SettingsINI.Get si0 h n) ∧
     (∀ h, h ≠ bytes "H" →
           SettingsINI.HeaderExists si' h = SettingsINI.HeaderExists si0 h)).
Proof.
  intros si0 si1. split.
  - apply (proj1 (Add_and_Set_contract si1 (bytes "H") (bytes "k") (bytes "w"))).
    by vm_compute.
  - apply (proj2 (Add_and_Set_contract si0 (bytes "H") (bytes "k") (bytes "v"))).
    by vm_compute.
Defined.

(** ** The remembered file name *)

Section remembered_filename.
Lemma INI_SaveFile_store si filename fs r :
  SettingsINI.SaveFile si filename fs r → r.1.2 = si.
Proof. by intros [|]. Qed.

Lemma INI_Save_store si filename fs r :
  SettingsINI.Save si filename fs r → r.1.2 = si.
Proof.
  unfold SettingsINI.Save. repeat case_decide; try apply INI_SaveFile_store.
  by intros ->.
Qed.

Lemma INI_LoadFile_Filename si filename fs r :
  SettingsINI.LoadFile si filename fs = Value r →
  SettingsINI.Filename r.2 = SettingsINI.Filename si.
Proof.
  unfold SettingsINI.LoadFile. destruct (os_Open fs filename); [|by intros [= <-]].
  case_decide; [done|].
  destruct (SettingsINI.LoadLoop _ _ _) as [err headers]. by intros [= <-].
Qed.

Lemma Sheet_LoadFile_Filename sd filename skipCols skipRows fs r :
  SpreadsheetDelim.LoadFile sd filename skipCols skipRows fs = Value r →
  SpreadsheetDelim.Filename r.2 = SpreadsheetDelim.Filename sd.
Proof.
  unfold SpreadsheetDelim.LoadFile.
  destruct (os_Open fs filename); [|by intros [= <-]].
  case_decide; [done|].
  destruct (SpreadsheetDelim.LoadLoop _ _ _ _ _ _) as [[err data]|]; [|done].
  by intros [= <-].
Qed.

Lemma Sheet_Save_store sd filename fs r :
  SpreadsheetDelim.Save sd filename fs = Value r → r.1.2 = sd.
Proof.
  unfold SpreadsheetDelim.Save, SpreadsheetDelim.SaveFile.
  repeat case_decide; repeat case_match; by intros [= <-].
Qed.
End remembered_filename.

(** C5, as amended.  Both stores remember the file name of the last
    [Load] called with a non-empty name, and [Save] never changes the
    remembered name.  After a [Load] with a non-empty name that returns,
    that name is the remembered one; a [Save] returns the store as it
    was, remembered name included.  With a remembered name, [Load] and
    [Save] called with the empty string do what they do when called with
    the remembered name; with none remembered they fail with
    InvalidArgument and change nothing. *)
Theorem filename_remembered_from_Load :
  (∀ si filename fs r,
      filename ≠ [] → SettingsINI.Load si filename fs = Value r →
      SettingsINI.Filename r.2 = filename) ∧
  (∀ si filename fs r, SettingsINI.Save si filename fs r → r.1.2 = si) ∧
  (∀ si fs,
      SettingsINI.Filename si ≠ [] →
      SettingsINI.Load si [] fs = SettingsINI.Load si (SettingsINI.Filename si) fs ∧
      ∀ r, SettingsINI.Save si [] fs r ↔
           SettingsINI.Save si (SettingsINI.Filename si) fs r) ∧
  (∀ si fs,
      SettingsINI.Filename si = [] →
      (∃ e, SettingsINI.Load si [] fs = Value (Some e, si) ∧
            t e = ErrorTypeInvalidArgument) ∧
      ∀ r, SettingsINI.Save si [] fs r →
           ∃ e, r = (Some e, si, fs) ∧ t e = ErrorTypeInvalidArgument) ∧
  (∀ sd filename skipCols skipRows fs r,
      filename ≠ [] →
      SpreadsheetDelim.Load sd filename skipCols skipRows fs = Value r →
      SpreadsheetDelim.Filename r.2 = filename) ∧
  (∀ sd filename fs r,
      SpreadsheetDelim.Save sd filename fs = Value r → r.1.2 = sd) ∧
  (∀ sd skipCols skipRows fs,
      SpreadsheetDelim.Filename sd ≠ [] →
      SpreadsheetDelim.Load sd [] skipCols skipRows fs =
        SpreadsheetDelim.Load sd (SpreadsheetDelim.Filename sd) skipCols skipRows fs ∧
      SpreadsheetDelim.Save sd [] fs =
        SpreadsheetDelim.Save sd (SpreadsheetDelim.Filename sd) fs) ∧
  (∀ sd skipCols skipRows fs,
      SpreadsheetDelim.Filename sd = [] →
      (∃ e, SpreadsheetDelim.Load sd [] skipCols skipRows fs = Value (Some e, sd) ∧
            t e = ErrorTypeInvalidArgument) ∧
      ∃ e, SpreadsheetDelim.Save sd [] fs = Value (Some e, sd, fs) ∧
           t e = ErrorTypeInvalidArgument).
Proof.
  repeat apply conj.
  - intros si filename fs r Hne. unfold SettingsINI.Load.
    rewrite decide_False by (by rewrite len_0).
    by intros ->%INI_LoadFile_Filename.
  - apply INI_Save_store.
  - intros si fs Hne. unfold SettingsINI.Load, SettingsINI.Save. simpl.
    split; [|intros r];
      rewrite !(decide_False (P := len (SettingsINI.Filename si) = 0%Z))
        by (by rewrite len_0);
      [by destruct si|done].
  - intros si fs Hnil. unfold SettingsINI.Load, SettingsINI.Save. simpl.
    split; [|intros r];
      rewrite !(decide_True (P := len (SettingsINI.Filename si) = 0%Z))
        by (by rewrite len_0);
      [by eexists|]. intros ->. by eexists.
  - intros sd filename skipCols skipRows fs r Hne. unfold SpreadsheetDelim.Load.
    rewrite decide_False by (by rewrite len_0).
    by intros ->%Sheet_LoadFile_Filename.
  - apply Sheet_Save_store.
  - intros sd skipCols skipRows fs Hne.
    unfold SpreadsheetDelim.Load, SpreadsheetDelim.Save. simpl.
    rewrite !(decide_False (P := len (SpreadsheetDelim.Filename sd) = 0%Z))
      by (by rewrite len_0).
    split; [by destruct sd|done].
  - intros sd skipCols skipRows fs Hnil.
    unfold SpreadsheetDelim.Load, SpreadsheetDelim.Save. simpl.
    rewrite !(decide_True (P := len (SpreadsheetDelim.Filename sd) = 0%Z))
      by (by rewrite len_0).
    split; by eexists.
Qed.

(** C5, at instances: a table that remembers the name "f", and a fresh
    table that remembers none. *)
Lemma filename_remembered_from_Load_witness :
  let fs := mkFS {[ bytes "f" := mkFile (bytes "1,2") None ]} ∅ in
  let sd := SpreadsheetDelim.mk 16 (bytes "f") (bytes ",") [] in
  let sd0 := SpreadsheetDelim.NewSpreadsheetDelim 16 (bytes ",") in
  (SpreadsheetDelim.Load sd [] 0 0 fs = SpreadsheetDelim.Load sd (bytes "f") 0 0 fs ∧
   SpreadsheetDelim.Save sd [] fs = SpreadsheetDelim.Save sd (bytes "f") fs) ∧
  ((∃ e, SpreadsheetDelim.Load sd0 [] 0 0 fs = Value (Some e, sd0) ∧
         t e = ErrorTypeInvalidArgument) ∧
   ∃ e, SpreadsheetDelim.Save sd0 [] fs = Value (Some e, sd0, fs) ∧
        t e = ErrorTypeInvalidArgument).
Proof.
  intros fs sd sd0.
  destruct filename_remembered_from_Load as (_ & _ & _ & _ & _ & _ & H7 & H8).
  split.
  - apply (H7 sd 0%Z 0%Z fs). by vm_compute.
  - apply (H8 sd0 0%Z 0%Z fs). reflexivity.
Defined.

(** C5, as stated, fails: [Save] called with a name does not remember it.
    On a fresh table Save("f") succeeds, and then Save and Load with the
    empty name both fail with InvalidArgument; the same holds of a fresh settings
    store. *)
Lemma Save_does_not_remember_filename :
  let fs0 := mkFS ∅ ∅ in
  let fs1 := write_file fs0 (bytes "f") [] in
  let sd := SpreadsheetDelim.NewSpreadsheetDelim 16 (bytes ",") in
  let si := SettingsINI.NewSettingsINI 16 in
  let invalid source msg := Some (mkError ErrorTypeInvalidArgument source msg) in
  (SpreadsheetDelim.Save sd (bytes "f") fs0 = Value (None, sd, fs1) ∧
   SpreadsheetDelim.Save sd [] fs1 =
     Value (invalid "SpreadsheetDelim" "No filename specified to save", sd, fs1) ∧
   SpreadsheetDelim.Load sd [] 0 0 fs1 =
     Value (invalid "SpreadsheetDelim" "No filename specified to load", sd)) ∧
  (SettingsINI.Save si (bytes "f") fs0 (None, si, fs1) ∧
   (∀ r, SettingsINI.Save si [] fs1 r →
         r = (invalid "SettingsINI" "Internal and argument filenames are empty",
              si, fs1)) ∧
   SettingsINI.Load si [] fs1 =
     Value (invalid "SettingsINI" "Internal and argument filename are empty", si)).
Proof.
  intros fs0 fs1 sd si invalid. split; [by repeat split|].
  split; [|by split].
  apply SettingsINI.SaveFile_written; [done|].
  apply (SettingsINI.SaveText_written si [] [] []); [done| |constructor].
  unfold SettingsINI.ranges. simpl. by rewrite map_to_list_empty.
Qed.

(** ** Trimming *)

Section trimming.
Implicit Types (s : gostring) (c : ascii).











End trimming.

(** ** SettingsINI: Load *)

Section settings_load.
Import SettingsINI.
Implicit Types (headers : gmap gostring SettingsINIHeader).
Implicit Types (cur : option gostring) (buf : gostring).



Lemma find_value_new_header headers h header name :
  find_value (<[h := mkHeader ∅]> headers) header name =
  if decide (h = header) then None else find_value headers header name.
Proof.
  unfold find_value. case_decide as Hh.
  - subst. by rewrite lookup_insert_eq.
  - by rewrite lookup_insert_ne.
Qed.


End settings_load.



Section settings_load_errors.
Import SettingsINI.
Implicit Types (headers : gmap gostring SettingsINIHeader).
Implicit Types (cur : option gostring) (buf : gostring).

(** A line of two characters or more that is no comment and does not
    begin with a bracket is rejected unless it holds an equal sign with a
    name before it and a value after it. *)
Lemma LoadLine_requires_pair buf headers cur c0 c1 rest :
  let line := c0 :: c1 :: rest in
  let equal := IndexByte line "="%char in
  TrimSpace buf = line →
  ¬ (c0 = "/"%char ∧ c1 = "/"%char) →
  c0 ≠ "["%char →
  equal = (-1)%Z ∨
  TrimSpace (slice line 0 equal) = [] ∨
  TrimSpace (slice line (equal + 1) (len line)) = [] →
  ∃ e, LoadLine buf headers cur = inl e ∧ t e = ErrorTypeParsing.
Proof.
  intros line equal Hline Hcomment Hbracket Hbad.
  unfold LoadLine. rewrite Hline. fold line.
  rewrite decide_False by (by rewrite len_0).
  unfold line at 1.
  assert (bool_decide (c0 = "/"%char) && bool_decide (c1 = "/"%char) = false)
    as ->.
  { apply andb_false_iff. rewrite !bool_decide_eq_false.
    destruct (decide (c0 = "/"%char)); [right|left]; tauto. }
  rewrite (decide_False (P := c0 = "["%char)) by done.
  fold line equal. case_decide; [by eexists|].
  case_decide; [by eexists|]. case_decide; [by eexists|].
  exfalso. rewrite <- !len_0 in Hbad. tauto.
Qed.


(** Such a line makes the whole load fail with a ParsingError, at whatever
    place it stands after lines that are accepted. *)
Lemma LoadLoop_requires_pair before eof buf after headers cur headers' c0 c1 rest :
  let line := c0 :: c1 :: rest in
  let equal := IndexByte line "="%char in
  Forall (λ r, ∃ data, r = ReadLine false data) before →
  LoadLoop before headers cur = (None, headers') →
  TrimSpace buf = line →
  ¬ (c0 = "/"%char ∧ c1 = "/"%char) →
  c0 ≠ "["%char →
  equal = (-1)%Z ∨
  TrimSpace (slice line 0 equal) = [] ∨
  TrimSpace (slice line (equal + 1) (len line)) = [] →
  ∃ e,
    LoadLoop (before ++ ReadLine eof buf :: after) headers cur =
      (Some e, headers') ∧
    t e = ErrorTypeParsing.
Proof.
  intros line equal Hbefore. revert headers cur.
  induction Hbefore as [|r before [data ->] Hbefore IH];
    intros headers cur Hloop Hline Hcomment Hbracket Hbad.
  - cbn in Hloop. simplify_eq.
    destruct (LoadLine_requires_pair buf headers' cur c0 c1 rest
                Hline Hcomment Hbracket Hbad) as (e & He & Hkind).
    exists e. cbn. by rewrite He.
  - cbn in Hloop |- *.
    destruct (LoadLine data headers cur) as [e'|[headers1 cur1]]; [done|].
    by apply IH.
Qed.
End settings_load_errors.




(** C4.  A line that is one character long after trimming is passed over
    whatever it holds: the text "x\n=\n", whose first line has no equal
    sign and whose second has neither name nor value, loads without error
    into an empty store.  (Lines of two characters or more are held to
    the rule, see [LoadLine_requires_pair].) *)
Theorem Load_passes_over_one_character_lines :
  SettingsINI.Load (SettingsINI.NewSettingsINI 16) (bytes "f")
    (mkFS {[ bytes "f" := mkFile (bytes "x" ++ [LF] ++ bytes " = " ++ [LF]) None ]} ∅)
  = Value (None, SettingsINI.mk 16 (bytes "f") ∅).
Proof. by vm_compute. Qed.

(** ** Reading back what was written *)

Section written_lines.
Implicit Types (s cur line more : gostring).





End written_lines.

(** ** Splitting what was joined *)

Section split_join.
Implicit Types (sep s cur c : gostring) (row : list gostring).







End split_join.

(** ** SpreadsheetDelim: a saved table is loaded back *)

Section table_roundtrip.
Import SpreadsheetDelim.
Implicit Types (sd : SpreadsheetDelim) (row : list gostring).
Implicit Types (data : list (list gostring)) (delim : gostring).







End table_roundtrip.

(** ** SettingsINI: the lines of a saved file are accepted *)

Section settings_lines.
Import SettingsINI.
Implicit Types (headers : gmap gostring SettingsINIHeader).
Implicit Types (cur : option gostring) (buf k v : gostring).







End settings_lines.

(** ** SettingsINI: a saved store is loaded back *)

Section settings_roundtrip.
Import SettingsINI.
Implicit Types (headers : gmap gostring SettingsINIHeader).
Implicit Types (cur : option gostring) (more : gostring).
Implicit Types (ps : list (gostring * gostring)).














End settings_roundtrip.

Section save_outcomes.
Import SettingsINI.






End save_outcomes.


(** Valid names and values keep a store valid under [Add] and [Set], so
    a store populated with them from the empty store is valid. *)
Lemma valid_store_empty : valid_store ∅.
Proof. intros header h Hh. by rewrite lookup_empty in Hh. Qed.

Lemma valid_store_find headers :
  valid_store headers ↔
  (∀ header, is_Some (headers !! header) → LF ∉ header) ∧
  (∀ header name value,
      find_value headers header name = Some value →
      valid_key name ∧ valid_value value).
Proof.
  unfold valid_store, find_value. split.
  - intros Hvalid. split.
    + intros header [h Hh]. by apply (Hvalid header h).
    + intros header name value Hfind.
      destruct (headers !! header) as [h|] eqn:Hh; [|done].
      by apply (Hvalid header h).
  - intros [Hnames Hpairs] header h Hh. split; [by apply Hnames|].
    intros name value Hv. apply (Hpairs header). by rewrite Hh.
Qed.

Lemma valid_store_store_value headers header name value :
  is_Some (headers !! header) →
  valid_key name → valid_value value →
  valid_store headers →
  valid_store (SettingsINI.store_value headers header name value).
Proof.
  intros Hheader Hname Hvalue. rewrite !valid_store_find.
  intros [Hnames Hpairs]. split.
  - intros h. rewrite store_value_is_Some. apply Hnames.
  - intros h n v. rewrite find_store_value by done.
    case_decide as Heq; [intros [= <-]; by simplify_eq|]. apply Hpairs.
Qed.

Lemma Add_valid_store (si : SettingsINI.SettingsINI) header name value :
  LF ∉ header → valid_key name → valid_value value →
  valid_store (SettingsINI.Headers si) →
  valid_store (SettingsINI.Headers (SettingsINI.Add si header name value).2).
Proof.
  intros Hheader Hname Hvalue Hvalid. unfold SettingsINI.Add.
  destruct (SettingsINI.Headers si !! header) as [h|] eqn:Hh.
  - destruct (SettingsINI.Values h !! name); [done|]. cbn.
    apply valid_store_store_value; eauto.
  - cbn. rewrite lookup_empty. cbn.
    apply valid_store_store_value; [rewrite lookup_insert_eq; eauto|done..|].
    intros header' h'. rewrite lookup_insert_Some.
    intros [[<- <-]|[_ Hh']]; [|by apply Hvalid].
    split; [done|]. intros n v. cbn. by rewrite lookup_empty.
Qed.

Lemma Set_valid_store (si : SettingsINI.SettingsINI) header name value :
  valid_key name → valid_value value →
  valid_store (SettingsINI.Headers si) →
  valid_store (SettingsINI.Headers (SettingsINI.Set_ si header name value).2).
Proof.
  intros Hname Hvalue Hvalid. unfold SettingsINI.Set_.
  destruct (SettingsINI.Headers si !! header) as [h|] eqn:Hh; [|done].
  destruct (SettingsINI.Values h !! name); [|done]. cbn.
  apply valid_store_store_value; eauto.
Qed.



(** * Further properties *)

(** ** ReadBufferedLine *)

Section buffered_line.
Implicit Types (r rest : list RawRead) (p line : gostring).
Implicit Types (fs : list gostring).

(** X1.  [ReadBufferedLine] puts a line that the reader delivers in
    fragments together: after the fragments [fs], each marked as a
    prefix, and the last part [line], the buffer holds what it held,
    then the fragments in order, then the last part; the call returns
    (false, nil) and leaves the reads after the line to the next call. *)
Theorem ReadBufferedLine_reassembles fs line rest p :
  ReadBufferedLine
    (((λ f, mkRaw f true None) <$> fs) ++ mkRaw line false None :: rest) p =
  (false, None, rest, p ++ concat fs ++ line).
Proof.
  revert p. induction fs as [|f fs IH]; intros p.
  - done.
  - rewrite fmap_cons.
    cbn [app ReadBufferedLine raw_err raw_isPrefix raw_line concat].
    rewrite IH. by rewrite <- !app_assoc.
Qed.

(** X2.  A read that fails ends the call with [eof] set.  At the end of
    the stream ([io.EOF]) the call returns (true, nil), and the buffer
    keeps the fragments read so far and gets the bytes of that read; on
    any other error the call returns (true, err) and the buffer holds
    what it held and the fragments read before the error. *)
Theorem ReadBufferedLine_ends fs raw rest p :
  (raw_err raw = Some EOF →
   ReadBufferedLine (((λ f, mkRaw f true None) <$> fs) ++ raw :: rest) p =
   (true, None, rest, p ++ concat fs ++ raw_line raw)) ∧
  (raw_err raw = Some ReadError →
   ReadBufferedLine (((λ f, mkRaw f true None) <$> fs) ++ raw :: rest) p =
   (true, Some ReadError, rest, p ++ concat fs)) ∧
  ReadBufferedLine ((λ f, mkRaw f true None) <$> fs) p =
  (true, None, [], p ++ concat fs).
Proof.
  revert p. induction fs as [|f fs IH]; intros p.
  - cbn. split; [by intros ->|]. split; [intros ->|]; by rewrite app_nil_r.
  - destruct (IH (p ++ f)) as (Heof & Herr & Hend).
    rewrite <- !app_assoc in Heof, Herr, Hend. rewrite fmap_cons.
    cbn [app ReadBufferedLine raw_err raw_isPrefix raw_line concat].
    rewrite <- !app_assoc. by repeat split.
Qed.
End buffered_line.

(** X2, at an instance: one fragment, then the end of the stream. *)
Lemma ReadBufferedLine_ends_witness :
  ReadBufferedLine
    (((λ f, mkRaw f true None) <$> [bytes "ab"])
       ++ mkRaw [] false (Some EOF) :: []) (bytes "x") =
  (true, None, [], bytes "x" ++ concat [bytes "ab"] ++ []).
Proof.
  apply (proj1 (ReadBufferedLine_ends [bytes "ab"] (mkRaw [] false (Some EOF))
                  [] (bytes "x"))).
  reflexivity.
Defined.

Section delivered_lines.
Implicit Types (r rest : list RawRead) (rs : list ReadResult).
Implicit Types (fs : list gostring) (s cur line : gostring).

(** An error is always returned with [eof] set. *)
Lemma ReadBufferedLine_error r p eof err r' p' :
  ReadBufferedLine r p = (eof, Some err, r', p') → eof = true.
Proof.
  revert p. induction r as [|raw r IH]; intros p; cbn; [done|].
  destruct (raw_err raw) as [[]|]; [done|by intros [= <-]|].
  destruct (raw_isPrefix raw); [apply IH | done].
Qed.

Lemma delivers_head r rs :
  delivers r rs →
  match ReadBufferedLine r [] with
  | (_, Some _, _, _) => rs = [ReadFail]
  | (true, None, _, p) => rs = [ReadLine true p]
  | (false, None, r', p) => ∃ rs', rs = ReadLine false p :: rs' ∧ delivers r' rs'
  end.
Proof. destruct 1 as [r err r' p ->|r r' p ->|r r' p rs -> Hrest]; eauto. Qed.

Lemma delivers_of_head r rs :
  match ReadBufferedLine r [] with
  | (_, Some _, _, _) => rs = [ReadFail]
  | (true, None, _, p) => rs = [ReadLine true p]
  | (false, None, r', p) => ∃ rs', rs = ReadLine false p :: rs' ∧ delivers r' rs'
  end →
  delivers r rs.
Proof.
  destruct (ReadBufferedLine r []) as [[[eof err] r'] p] eqn:Hcall.
  destruct err as [err|].
  - pose proof (ReadBufferedLine_error _ _ _ _ _ _ Hcall) as ->.
    intros ->. by eapply delivers_error.
  - destruct eof.
    + intros ->. by eapply delivers_eof.
    + intros (rs' & -> & Hrest). by eapply delivers_line.
Qed.
End delivered_lines.

(** X3.  How the reader cuts a line into fragments does not matter to
    the loops of [Load]: a reader that delivers a line in fragments, each
    marked as a prefix, delivers to them what the reader delivers that
    gives the same line whole. *)
Theorem delivers_fragmented
    (fs : list gostring) (line : gostring) (rest : list RawRead)
    (rs : list ReadResult) :
  delivers (((λ f, mkRaw f true None) <$> fs) ++ mkRaw line false None :: rest) rs ↔
  delivers (mkRaw (concat fs ++ line) false None :: rest) rs.
Proof.
  split; intros Hrs; apply delivers_of_head; apply delivers_head in Hrs;
    rewrite ReadBufferedLine_reassembles in *; cbn in *; by rewrite ?app_nil_r in *.
Qed.

(** X4.  Over a reader that gives every line whole, the loops of [Load]
    get the lines of the text: for every line feed the bytes before it
    without a carriage return at their end, then the bytes after the last
    line feed if there are any, and at last the end of the stream with no
    bytes. *)
Theorem delivers_text_lines (s cur : gostring) :
  delivers (RawReads s cur) (ReadLines s cur).
Proof.
  revert cur. induction s as [|c s IH]; intros cur; cbn [RawReads ReadLines].
  - destruct cur as [|c cur].
    + by apply (delivers_eof [] [] []).
    + apply (delivers_line _ [] (c :: cur)); [done|].
      by apply (delivers_eof [] [] []).
  - case_decide; [|apply IH].
    apply (delivers_line _ (RawReads s []) (drop_cr cur)); [done | apply IH].
Qed.

(** ** SpreadsheetDelim: what Get and Set observe and change *)

Section table_observed.
Import SpreadsheetDelim.
Implicit Types (sd : SpreadsheetDelim) (d : list (list gostring)).
Implicit Types (row col : Z) (v : gostring) (r : list gostring).

Lemma list_default_ext (A : Type) (x : A) (l1 l2 : list A) :
  length l1 = length l2 →
  (∀ i, default x (l1 !! i) = default x (l2 !! i)) →
  l1 = l2.
Proof.
  intros Hlen Hext. apply list_eq_same_length with (length l1); [done..|].
  intros i y1 y2 Hi H1 H2. specialize (Hext i). by rewrite H1, H2 in Hext.
Qed.

(** Two tables with the same number of rows, the same row lengths and
    the same cells are the same table. *)
Lemma table_ext d1 d2 :
  length d1 = length d2 →
  (∀ i, length (row_at d1 i) = length (row_at d2 i)) →
  (∀ i j, cell_at d1 i j = cell_at d2 i j) →
  d1 = d2.
Proof.
  intros Hlen Hrows Hcells. apply (list_default_ext _ []); [done|].
  intros i. apply (list_default_ext _ []); [apply Hrows|].
  intros j. apply Hcells.
Qed.

Lemma row_at_padded d k i : row_at (d ++ replicate k []) i = row_at d i.
Proof.
  unfold row_at. destruct (decide (i < length d)) as [Hi|Hi].
  - by rewrite lookup_app_l.
  - rewrite lookup_app_r, (lookup_ge_None_2 d) by lia.
    destruct (replicate k [] !! (i - length d)) as [x|] eqn:Hx; [|done].
    by apply lookup_replicate in Hx as [-> _].
Qed.

Lemma cell_padded r k j :
  default [] ((r ++ replicate k []) !! j) = default ([] : gostring) (r !! j).
Proof.
  destruct (decide (j < length r)) as [Hj|Hj].
  - by rewrite lookup_app_l.
  - rewrite lookup_app_r, (lookup_ge_None_2 r) by lia.
    destruct (replicate k [] !! (j - length r)) as [x|] eqn:Hx; [|done].
    by apply lookup_replicate in Hx as [-> _].
Qed.

Lemma row_at_insert d i k r :
  k < length d →
  row_at (<[k := r]> d) i = if decide (i = k) then r else row_at d i.
Proof.
  intros Hk. unfold row_at. case_decide as Hi.
  - subst. by rewrite list_lookup_insert_eq.
  - by rewrite list_lookup_insert_ne.
Qed.

(** [Set_] in terms of what a table holds: the number of rows becomes at
    least row+1 and no more than needed, the target row becomes at
    least col+1 long and no more than needed, no other row changes its
    length, the target cell holds the value and every other cell holds
    what it held (the empty string where there was none). *)
Lemma Set_observed sd row col v :
  (0 ≤ row)%Z → (0 ≤ col)%Z →
  ∃ d',
    Set_ sd row col v = Value (None, with_Data sd d') ∧
    length d' = length (Data sd) `max` S (Z.to_nat row) ∧
    (∀ i, length (row_at d' i) =
          if decide (i = Z.to_nat row)
          then length (row_at (Data sd) i) `max` S (Z.to_nat col)
          else length (row_at (Data sd) i)) ∧
    (∀ i j, cell_at d' i j =
            if decide ((i, j) = (Z.to_nat row, Z.to_nat col)) then v
            else cell_at (Data sd) i j).
Proof.
  intros Hrow Hcol.
  destruct (Set_value sd row col v Hrow Hcol) as (r & Hr & ->).
  eexists. split; [done|].
  assert (r = row_at (Data sd) (Z.to_nat row)) as Hr'.
  { rewrite <- (row_at_padded _ (Z.to_nat (row - len (Data sd) + 1))).
    rewrite <- grow_to_replicate. unfold row_at. by rewrite Hr. }
  clear Hr. rewrite !grow_to_replicate.
  set (k := Z.to_nat (row - len (Data sd) + 1)).
  set (k' := Z.to_nat (col - len r + 1)).
  assert (Z.to_nat row < length (Data sd) + k) as Hlen
    by (unfold k, len; lia).
  assert (Z.to_nat col < length r + k') as Hlen' by (unfold k', len; lia).
  assert (length (Data sd) + k = length (Data sd) `max` S (Z.to_nat row))
    as Hmax by (unfold k, len; lia).
  assert (length r + k' = length r `max` S (Z.to_nat col)) as Hmax'
    by (unfold k', len; lia).
  clearbody k k'.
  split; [|split].
  - rewrite length_insert, length_app, length_replicate. lia.
  - intros i. rewrite row_at_insert by (rewrite length_app, length_replicate; lia).
    rewrite row_at_padded. case_decide as Hi; [|done].
    subst i. rewrite length_insert, length_app, length_replicate, <- Hr'. lia.
  - intros i j. unfold cell_at.
    rewrite row_at_insert by (rewrite length_app, length_replicate; lia).
    rewrite row_at_padded. destruct (decide (i = Z.to_nat row)) as [->|Hi].
    + destruct (decide (j = Z.to_nat col)) as [->|Hj].
      * rewrite decide_True by done.
        rewrite list_lookup_insert_eq; [done|].
        rewrite length_app, length_replicate. lia.
      * rewrite decide_False by congruence.
        rewrite list_lookup_insert_ne by done.
        by rewrite cell_padded, Hr'.
    + by rewrite decide_False by congruence.
Qed.
End table_observed.

(** X5.  At coordinates that are not negative [Get] never faults: it
    returns the cell and true if the table has a cell there, and the
    empty string and false if the row or the column is at or past the
    end. *)
Theorem Get_reads_cell
    (sd : SpreadsheetDelim.SpreadsheetDelim) (row col : Z) :
  (0 ≤ row)%Z → (0 ≤ col)%Z →
  SpreadsheetDelim.Get sd row col =
  Value (match cell (SpreadsheetDelim.Data sd) (Z.to_nat row) (Z.to_nat col) with
         | Some v => (v, true)
         | None => ([], false)
         end).
Proof.
  intros Hrow Hcol.
  destruct (cell (SpreadsheetDelim.Data sd) (Z.to_nat row) (Z.to_nat col))
    as [v|] eqn:Hcell.
  - by apply Get_in_bounds.
  - by apply Get_beyond_bounds.
Qed.

(** X5, at an instance: past the end of the only row. *)
Lemma Get_reads_cell_witness :
  SpreadsheetDelim.Get (SpreadsheetDelim.mk 16 [] (bytes ",") [[bytes "a"]]) 0 1 =
  Value ([], false).
Proof.
  apply (Get_reads_cell (SpreadsheetDelim.mk 16 [] (bytes ",") [[bytes "a"]]) 0 1);
    lia.
Defined.

(** X6.  [Set] at coordinates that are not negative grows the table no
    more than it must and changes nothing else: afterwards the number of
    rows is the larger of the old number and row+1, the length of the
    target row is the larger of its old length and col+1, every other
    row has the length it had, the target cell holds the value, every
    other cell holds what it held (cells that are new hold the empty
    string), and buffer size, file name and delimiter are as before. *)
Theorem Set_grows_no_more_than_needed
    (sd : SpreadsheetDelim.SpreadsheetDelim) (row col : Z) (v : gostring) :
  (0 ≤ row)%Z → (0 ≤ col)%Z →
  ∃ sd',
    SpreadsheetDelim.Set_ sd row col v = Value (None, sd') ∧
    SpreadsheetDelim.buffer sd' = SpreadsheetDelim.buffer sd ∧
    SpreadsheetDelim.Filename sd' = SpreadsheetDelim.Filename sd ∧
    SpreadsheetDelim.delimeter sd' = SpreadsheetDelim.delimeter sd ∧
    length (SpreadsheetDelim.Data sd') =
      length (SpreadsheetDelim.Data sd) `max` S (Z.to_nat row) ∧
    (∀ i, length (row_at (SpreadsheetDelim.Data sd') i) =
          if decide (i = Z.to_nat row)
          then length (row_at (SpreadsheetDelim.Data sd) i) `max` S (Z.to_nat col)
          else length (row_at (SpreadsheetDelim.Data sd) i)) ∧
    (∀ i j, cell_at (SpreadsheetDelim.Data sd') i j =
            if decide ((i, j) = (Z.to_nat row, Z.to_nat col)) then v
            else cell_at (SpreadsheetDelim.Data sd) i j).
Proof.
  intros Hrow Hcol.
  destruct (Set_observed sd row col v Hrow Hcol) as (d' & -> & Hobs).
  by eexists.
Qed.

(** X6, at an instance. *)
Lemma Set_grows_no_more_than_needed_witness :
  let sd := SpreadsheetDelim.mk 16 [] (bytes ",") [[bytes "a"]; [bytes "b"; bytes "c"]] in
  ∃ sd',
    SpreadsheetDelim.Set_ sd 0 2 (bytes "v") = Value (None, sd') ∧
    SpreadsheetDelim.buffer sd' = SpreadsheetDelim.buffer sd ∧
    SpreadsheetDelim.Filename sd' = SpreadsheetDelim.Filename sd ∧
    SpreadsheetDelim.delimeter sd' = SpreadsheetDelim.delimeter sd ∧
    length (SpreadsheetDelim.Data sd') =
      length (SpreadsheetDelim.Data sd) `max` S (Z.to_nat 0) ∧
    (∀ i, length (row_at (SpreadsheetDelim.Data sd') i) =
          if decide (i = Z.to_nat 0)
          then length (row_at (SpreadsheetDelim.Data sd) i) `max` S (Z.to_nat 2)
          else length (row_at (SpreadsheetDelim.Data sd) i)) ∧
    (∀ i j, cell_at (SpreadsheetDelim.Data sd') i j =
            if decide ((i, j) = (Z.to_nat 0, Z.to_nat 2)) then bytes "v"
            else cell_at (SpreadsheetDelim.Data sd) i j).
Proof.
  intros sd. apply (Set_grows_no_more_than_needed sd 0 2 (bytes "v")); lia.
Defined.

(** X7.  The last [Set] of a cell wins: setting a cell and setting it
    again leaves the table that the second [Set] alone leaves. *)
Theorem Set_twice_is_last_Set
    (sd : SpreadsheetDelim.SpreadsheetDelim) (row col : Z) (v w : gostring) :
  (0 ≤ row)%Z → (0 ≤ col)%Z →
  ∃ sd1 sd2,
    SpreadsheetDelim.Set_ sd row col v = Value (None, sd1) ∧
    SpreadsheetDelim.Set_ sd1 row col w = Value (None, sd2) ∧
    SpreadsheetDelim.Set_ sd row col w = Value (None, sd2).
Proof.
  intros Hrow Hcol.
  destruct (Set_observed sd row col v Hrow Hcol) as (d1 & H1 & Hl1 & Hr1 & Hc1).
  destruct (Set_observed (SpreadsheetDelim.with_Data sd d1) row col w Hrow Hcol)
    as (d2 & H2 & Hl2 & Hr2 & Hc2).
  destruct (Set_observed sd row col w Hrow Hcol) as (d3 & H3 & Hl3 & Hr3 & Hc3).
  eexists _, _. split; [exact H1|]. split; [exact H2|]. rewrite H3.
  cbn in *. do 2 f_equal. unfold SpreadsheetDelim.with_Data. cbn. f_equal.
  apply table_ext.
  - lia.
  - intros i. rewrite Hr2, Hr3, Hr1. case_decide; lia.
  - intros i j. rewrite Hc2, Hc3, Hc1. by case_decide.
Qed.

(** X7, at an instance. *)
Lemma Set_twice_is_last_Set_witness :
  ∃ sd1 sd2,
    SpreadsheetDelim.Set_ (SpreadsheetDelim.NewSpreadsheetDelim 16 (bytes ","))
      1 1 (bytes "v") = Value (None, sd1) ∧
    SpreadsheetDelim.Set_ sd1 1 1 (bytes "w") = Value (None, sd2) ∧
    SpreadsheetDelim.Set_ (SpreadsheetDelim.NewSpreadsheetDelim 16 (bytes ","))
      1 1 (bytes "w") = Value (None, sd2).
Proof.
  apply (Set_twice_is_last_Set
           (SpreadsheetDelim.NewSpreadsheetDelim 16 (bytes ","))
           1 1 (bytes "v") (bytes "w")); lia.
Defined.

(** X8.  [Set]s of two different cells can be made in either order: the
    table is the same. *)
Theorem Set_of_different_cells_commute
    (sd : SpreadsheetDelim.SpreadsheetDelim)
    (row1 col1 row2 col2 : Z) (v1 v2 : gostring) :
  (0 ≤ row1)%Z → (0 ≤ col1)%Z → (0 ≤ row2)%Z → (0 ≤ col2)%Z →
  (row1, col1) ≠ (row2, col2) →
  ∃ sda sdb sd',
    SpreadsheetDelim.Set_ sd row1 col1 v1 = Value (None, sda) ∧
    SpreadsheetDelim.Set_ sda row2 col2 v2 = Value (None, sd') ∧
    SpreadsheetDelim.Set_ sd row2 col2 v2 = Value (None, sdb) ∧
    SpreadsheetDelim.Set_ sdb row1 col1 v1 = Value (None, sd').
Proof.
  intros Hr1 Hc1 Hr2 Hc2 Hne.
  destruct (Set_observed sd row1 col1 v1 Hr1 Hc1) as (da & Ha & Hla & Hra & Hca).
  destruct (Set_observed (SpreadsheetDelim.with_Data sd da) row2 col2 v2 Hr2 Hc2)
    as (dab & Hab & Hlab & Hrab & Hcab).
  destruct (Set_observed sd row2 col2 v2 Hr2 Hc2) as (db & Hb & Hlb & Hrb & Hcb).
  destruct (Set_observed (SpreadsheetDelim.with_Data sd db) row1 col1 v1 Hr1 Hc1)
    as (dba & Hba & Hlba & Hrba & Hcba).
  eexists _, _, _. split; [exact Ha|]. split; [exact Hab|]. split; [exact Hb|].
  rewrite Hba. cbn in *. do 2 f_equal.
  unfold SpreadsheetDelim.with_Data. cbn. f_equal.
  apply table_ext.
  - lia.
  - intros i. rewrite Hrba, Hrab, Hra, Hrb. repeat case_decide; lia.
  - intros i j. rewrite Hcba, Hcab, Hca, Hcb.
    repeat case_decide; try done. simplify_eq. destruct Hne. f_equal; lia.
Qed.

(** X8, at an instance: two cells of one new row. *)
Lemma Set_of_different_cells_commute_witness :
  ∃ sda sdb sd',
    SpreadsheetDelim.Set_ (SpreadsheetDelim.NewSpreadsheetDelim 16 (bytes ","))
      1 0 (bytes "a") = Value (None, sda) ∧
    SpreadsheetDelim.Set_ sda 1 2 (bytes "b") = Value (None, sd') ∧
    SpreadsheetDelim.Set_ (SpreadsheetDelim.NewSpreadsheetDelim 16 (bytes ","))
      1 2 (bytes "b") = Value (None, sdb) ∧
    SpreadsheetDelim.Set_ sdb 1 0 (bytes "a") = Value (None, sd').
Proof.
  apply (Set_of_different_cells_commute
           (SpreadsheetDelim.NewSpreadsheetDelim 16 (bytes ","))
           1 0 1 2 (bytes "a") (bytes "b")); (lia || done).
Defined.

(** ** SpreadsheetDelim: every outcome of Load *)

Section table_load_outcomes.
Import SpreadsheetDelim.
Implicit Types (sd : SpreadsheetDelim) (ls : list gostring).
Implicit Types (reader : list ReadResult).

(** One passage of the loop, whether or not the read is the last. *)
Lemma LoadLoop_read delimeter skipCols skipRows eof l reader counter data :
  (0 ≤ skipCols)%Z →
  LoadLoop delimeter skipCols skipRows (ReadLine eof l :: reader) counter data =
  let counter' := if decide (counter < skipRows)%Z then (counter + 1)%Z
                  else counter in
  let data' := if decide (counter < skipRows)%Z then data
               else data ++ option_list (spec_row delimeter skipCols l) in
  if eof then Value (None, data')
  else LoadLoop delimeter skipCols skipRows reader counter' data'.
Proof.
  intros Hcols. cbn [LoadLoop]. case_decide; [done|]. unfold spec_row.
  case_decide as Hlen.
  { apply len_0 in Hlen as ->. cbn. by rewrite app_nil_r. }
  assert (l ≠ []) as Hl by (by intros ->).
  assert (len (Split l delimeter) ≠ 0%Z) as Hsplit.
  { intros Hnil%len_0. by apply Split_nonempty in Hnil. }
  rewrite (decide_False (P := l = [])) by done.
  rewrite (decide_False (P := len (Split l delimeter) = 0%Z)) by done.
  case_decide as Hfew; cbn.
  { by rewrite app_nil_r. }
  unfold slice_from. by rewrite decide_True by lia.
Qed.

Lemma LoadLoop_outcome delimeter skipCols skipRows reader counter data :
  (0 ≤ skipCols)%Z →
  ∃ e rows,
    LoadLoop delimeter skipCols skipRows reader counter data =
      Value (e, data ++ rows) ∧
    (e = None ∨
     e = Some (mkError ErrorTypeLoading source "Failed to read a new line")).
Proof.
  intros Hcols. revert counter data.
  induction reader as [|[eof l|] reader IH]; intros counter data.
  - exists None, []. by rewrite app_nil_r; split; [|left].
  - rewrite LoadLoop_read by done. cbn zeta.
    destruct eof.
    + case_decide.
      * exists None, []. rewrite app_nil_r. by split; [|left].
      * eexists None, _. by split; [|left].
    + case_decide.
      * apply IH.
      * destruct (IH counter (data ++ option_list (spec_row delimeter skipCols l)))
          as (e & rows & -> & He).
        exists e, (option_list (spec_row delimeter skipCols l) ++ rows).
        by rewrite app_assoc.
  - eexists _, []. rewrite app_nil_r. by split; [|right].
Qed.


End table_load_outcomes.

(** X9.  [SpreadsheetDelim.Load] with a buffer size and a skipCols that
    are not negative never faults and never returns a ParsingError,
    whatever the file holds: it returns, with no error or with an
    InvalidArgument or a LoadingError, and in every case the rows the
    table held are still its first rows, and buffer size and delimiter
    are unchanged. *)
Theorem Load_returns_and_keeps_rows
    (sd : SpreadsheetDelim.SpreadsheetDelim) (filename : gostring)
    (skipCols skipRows : Z) (fs : FS) :
  (0 ≤ SpreadsheetDelim.buffer sd)%Z → (0 ≤ skipCols)%Z →
  ∃ e sd' rows,
    SpreadsheetDelim.Load sd filename skipCols skipRows fs = Value (e, sd') ∧
    (∀ err, e = Some err →
            t err = ErrorTypeInvalidArgument ∨ t err = ErrorTypeLoading) ∧
    SpreadsheetDelim.Data sd' = SpreadsheetDelim.Data sd ++ rows ∧
    SpreadsheetDelim.buffer sd' = SpreadsheetDelim.buffer sd ∧
    SpreadsheetDelim.delimeter sd' = SpreadsheetDelim.delimeter sd.
Proof.
  intros Hbuf Hcols.
  assert (∀ sd0 name,
    SpreadsheetDelim.buffer sd0 = SpreadsheetDelim.buffer sd →
    SpreadsheetDelim.delimeter sd0 = SpreadsheetDelim.delimeter sd →
    SpreadsheetDelim.Data sd0 = SpreadsheetDelim.Data sd →
    ∃ e sd' rows,
      SpreadsheetDelim.LoadFile sd0 name skipCols skipRows fs = Value (e, sd') ∧
      (∀ err, e = Some err →
              t err = ErrorTypeInvalidArgument ∨ t err = ErrorTypeLoading) ∧
      SpreadsheetDelim.Data sd' = SpreadsheetDelim.Data sd ++ rows ∧
      SpreadsheetDelim.buffer sd' = SpreadsheetDelim.buffer sd ∧
      SpreadsheetDelim.delimeter sd' = SpreadsheetDelim.delimeter sd) as Hfile.
  { intros sd0 name Hb Hd Hdata. unfold SpreadsheetDelim.LoadFile.
    destruct (os_Open fs name) as [file|].
    - rewrite decide_False by lia.
      destruct (LoadLoop_outcome (SpreadsheetDelim.delimeter sd0) skipCols skipRows
                  (NewReader file) 0 (SpreadsheetDelim.Data sd0) Hcols)
        as (e & rows & -> & He).
      exists e, (SpreadsheetDelim.with_Data sd0 (SpreadsheetDelim.Data sd0 ++ rows)), rows.
      split; [done|]. split; [|by rewrite Hdata].
      intros err ->. destruct He as [|[= ->]]; [done | by right].
    - eexists _, sd0, []. split; [done|]. rewrite app_nil_r.
      split; [|done]. intros err [= <-]. by right. }
  unfold SpreadsheetDelim.Load. case_decide; [case_decide|].
  - exists (Some (mkError ErrorTypeInvalidArgument SpreadsheetDelim.source
                    "No filename specified to load")), sd, [].
    rewrite app_nil_r. split; [done|]. split; [|done].
    intros err [= <-]. by left.
  - by apply Hfile.
  - by apply Hfile.
Qed.

(** X9, at an instance: a file with a read fault. *)
Lemma Load_returns_and_keeps_rows_witness :
  let sd := SpreadsheetDelim.mk 16 [] (bytes ",") [[bytes "x"]] in
  let fs := mkFS {[ bytes "f" := mkFile (bytes "a" ++ [LF] ++ bytes "b") (Some 1) ]} ∅ in
  ∃ e sd' rows,
    SpreadsheetDelim.Load sd (bytes "f") 0 0 fs = Value (e, sd') ∧
    (∀ err, e = Some err →
            t err = ErrorTypeInvalidArgument ∨ t err = ErrorTypeLoading) ∧
    SpreadsheetDelim.Data sd' = SpreadsheetDelim.Data sd ++ rows ∧
    SpreadsheetDelim.buffer sd' = SpreadsheetDelim.buffer sd ∧
    SpreadsheetDelim.delimeter sd' = SpreadsheetDelim.delimeter sd.
Proof.
  intros sd fs. apply (Load_returns_and_keeps_rows sd (bytes "f") 0 0 fs); cbn; lia.
Defined.



(** ** SettingsINI: what the lines of a file mean to Load *)

Section settings_line_meaning.
Import SettingsINI.
Implicit Types (headers : gmap gostring SettingsINIHeader).
Implicit Types (cur : option gostring) (buf s ws : gostring).








End settings_line_meaning.









(** ** SettingsINI: the store as a whole *)

(** X15.  [SettingsINI.Load] replaces the store: two stores that open the
    same file end with the same error and the same headers, whatever
    they held before.  And loading again under the remembered name
    changes nothing: a [Load] that returned, repeated with the empty
    file name on the store it left and the same files, returns the same
    error and leaves the same store. *)
Theorem Load_replaces_the_store :
  (∀ (si1 si2 : SettingsINI.SettingsINI) (filename : gostring) (fs : FS)
     (file : File),
      filename ≠ [] →
      os_Open fs filename = Some file →
      (0 ≤ SettingsINI.buffer si1)%Z → (0 ≤ SettingsINI.buffer si2)%Z →
      ∃ e headers,
        SettingsINI.Load si1 filename fs =
          Value (e, SettingsINI.mk (SettingsINI.buffer si1) filename headers) ∧
        SettingsINI.Load si2 filename fs =
          Value (e, SettingsINI.mk (SettingsINI.buffer si2) filename headers)) ∧
  (∀ (si si' : SettingsINI.SettingsINI) (filename : gostring) (fs : FS) e,
      SettingsINI.Load si filename fs = Value (e, si') →
      SettingsINI.Load si' [] fs = Value (e, si')).
Proof.
  split.
  - intros si1 si2 filename fs file Hname Hopen Hb1 Hb2.
    unfold SettingsINI.Load, SettingsINI.LoadFile.
    rewrite !(decide_False (P := len filename = 0%Z)) by (by rewrite len_0).
    rewrite Hopen. cbn [SettingsINI.buffer SettingsINI.with_Filename].
    rewrite !decide_False by lia.
    destruct (SettingsINI.LoadLoop (NewReader file) ∅ None) as [e headers].
    by exists e, headers.
  - intros si si' filename fs e.
    assert (∀ si0 name,
      name ≠ [] → SettingsINI.Filename si0 = name →
      SettingsINI.LoadFile si0 name fs = Value (e, si') →
      SettingsINI.Load si' [] fs = Value (e, si')) as Hfile.
    { intros si0 name Hname Hsame. unfold SettingsINI.Load, SettingsINI.LoadFile.
      rewrite (decide_True (P := len (@nil ascii) = 0%Z)) by done.
      destruct (os_Open fs name) as [file|] eqn:Hopen.
      - case_decide as Hbuf; [done|].
        destruct (SettingsINI.LoadLoop (NewReader file) ∅ None)
          as [err headers] eqn:Hloop.
        intros [= <- <-].
        cbn [SettingsINI.Filename SettingsINI.buffer SettingsINI.with_Headers].
        rewrite Hsame.
        rewrite (decide_False (P := len name = 0%Z)) by (by rewrite len_0).
        rewrite Hopen, decide_False by done. rewrite Hloop.
        by destruct si0.
      - intros [= <- <-]. rewrite Hsame.
        rewrite (decide_False (P := len name = 0%Z)) by (by rewrite len_0).
        by rewrite Hopen. }
    unfold SettingsINI.Load at 1. case_decide as Hlen; [case_decide as Hlen'|].
    + intros [= <- <-]. unfold SettingsINI.Load. by rewrite !decide_True.
    + apply Hfile; [by rewrite <- len_0 | done].
    + apply Hfile; [by rewrite <- len_0 | done].
Qed.

(** X15, at an instance: a store that holds a pair and a fresh one load
    the text "[B]\ny = 2\n". *)
Lemma Load_replaces_the_store_witness :
  let fs := mkFS {[ bytes "f" :=
                      mkFile (bytes "[B]" ++ [LF] ++ bytes "y = 2" ++ [LF]) None ]} ∅ in
  let si1 := SettingsINI.mk 16 []
               {[ bytes "A" := SettingsINI.mkHeader {[ bytes "x" := bytes "1" ]} ]} in
  let si2 := SettingsINI.NewSettingsINI 1 in
  ∃ e headers,
    SettingsINI.Load si1 (bytes "f") fs =
      Value (e, SettingsINI.mk (SettingsINI.buffer si1) (bytes "f") headers) ∧
    SettingsINI.Load si2 (bytes "f") fs =
      Value (e, SettingsINI.mk (SettingsINI.buffer si2) (bytes "f") headers).
Proof.
  intros fs si1 si2.
  apply (proj1 Load_replaces_the_store si1 si2 (bytes "f") fs
           (mkFile (bytes "[B]" ++ [LF] ++ bytes "y = 2" ++ [LF]) None));
    first [done | cbn; lia | by vm_compute].
Defined.

Section settings_observed.
Import SettingsINI.
Implicit Types (si : SettingsINI) (header name value : gostring).
Implicit Types (headers : gmap gostring SettingsINIHeader).

(** Two maps of headers with the same header names and the same pairs
    are the same. *)
Lemma headers_ext headers1 headers2 :
  (∀ h, is_Some (headers1 !! h) ↔ is_Some (headers2 !! h)) →
  (∀ h n, find_value headers1 h n = find_value headers2 h n) →
  headers1 = headers2.
Proof.
  intros Hnames Hpairs. apply map_eq. intros h.
  specialize (Hnames h). unfold find_value in Hpairs.
  destruct (headers1 !! h) as [[v1]|] eqn:H1, (headers2 !! h) as [[v2]|] eqn:H2.
  - do 2 f_equal. apply map_eq. intros n. specialize (Hpairs h n).
    by rewrite H1, H2 in Hpairs.
  - destruct Hnames as [Hn _]. by destruct Hn.
  - destruct Hnames as [_ Hn]. by destruct Hn.
  - done.
Qed.

(** What [Add] does to a store that lacks the pair. *)
Lemma Add_observed si header name value :
  find_value (Headers si) header name = None →
  ∃ headers',
    Add si header name value = (None, with_Headers si headers') ∧
    (∀ h, is_Some (headers' !! h) ↔ h = header ∨ is_Some (Headers si !! h)) ∧
    (∀ h n, find_value headers' h n =
            if decide ((header, name) = (h, n)) then Some value
            else find_value (Headers si) h n).
Proof.
  unfold Add. intros Hnone. unfold find_value in Hnone.
  destruct (Headers si !! header) as [hd|] eqn:Hhd; cbn in Hnone.
  - rewrite Hnone. eexists. split; [done|]. split.
    + intros h. rewrite store_value_is_Some. split; [by right|].
      intros [->|?]; [by rewrite Hhd | done].
    + intros h n. by rewrite find_store_value by (by rewrite Hhd).
  - cbn. rewrite lookup_empty. eexists. split; [done|]. split.
    + intros h. rewrite store_value_is_Some, lookup_insert_is_Some.
      destruct (decide (header = h)) as [<-|]; [by split; auto|].
      split; [intros [|[_ ?]]; [done | by right] | intros [|]; [done|by right]].
    + intros h n.
      rewrite find_store_value by (rewrite lookup_insert_eq; eauto).
      case_decide; [done|]. rewrite find_value_new_header.
      case_decide as Hh; [|done]. subst h. unfold find_value. by rewrite Hhd.
Qed.
End settings_observed.

(** X16.  [ValueExists] is true exactly for the pairs that [Get] finds,
    a value can exist only under a header that exists, and [Get] returns
    the empty string when it finds nothing. *)
Theorem ValueExists_agrees_with_Get
    (si : SettingsINI.SettingsINI) (header name : gostring) :
  SettingsINI.ValueExists si header name = (SettingsINI.Get si header name).2 ∧
  (SettingsINI.ValueExists si header name = true →
   SettingsINI.HeaderExists si header = true) ∧
  ((SettingsINI.Get si header name).2 = false →
   (SettingsINI.Get si header name).1 = []).
Proof.
  split; [apply ValueExists_Get|]. split.
  - unfold SettingsINI.ValueExists, SettingsINI.HeaderExists.
    destruct (SettingsINI.Headers si !! header); [|done].
    intros _. by apply bool_decide_eq_true_2.
  - unfold SettingsINI.Get.
    destruct (SettingsINI.Headers si !! header) as [h|]; [|done].
    by destruct (SettingsINI.Values h !! name).
Qed.

(** X17.  [Add]s of two different pairs that the store lacks succeed in
    either order and leave the same store. *)
Theorem Add_of_different_pairs_commute
    (si : SettingsINI.SettingsINI)
    (header1 name1 value1 header2 name2 value2 : gostring) :
  (header1, name1) ≠ (header2, name2) →
  SettingsINI.ValueExists si header1 name1 = false →
  SettingsINI.ValueExists si header2 name2 = false →
  ∃ sia sib si',
    SettingsINI.Add si header1 name1 value1 = (None, sia) ∧
    SettingsINI.Add sia header2 name2 value2 = (None, si') ∧
    SettingsINI.Add si header2 name2 value2 = (None, sib) ∧
    SettingsINI.Add sib header1 name1 value1 = (None, si').
Proof.
  intros Hne H1 H2.
  assert (∀ s h n, SettingsINI.ValueExists s h n = false →
                   find_value (SettingsINI.Headers s) h n = None) as Habsent.
  { intros s h n. rewrite ValueExists_Get, Get_find.
    by destruct (find_value (SettingsINI.Headers s) h n). }
  apply Habsent in H1, H2.
  destruct (Add_observed si header1 name1 value1 H1) as (ha & Ha & Hna & Hfa).
  destruct (Add_observed si header2 name2 value2 H2) as (hb & Hb & Hnb & Hfb).
  destruct (Add_observed (SettingsINI.with_Headers si ha) header2 name2 value2)
    as (hab & Hab & Hnab & Hfab).
  { cbn. rewrite Hfa. by rewrite decide_False. }
  destruct (Add_observed (SettingsINI.with_Headers si hb) header1 name1 value1)
    as (hba & Hba & Hnba & Hfba).
  { cbn. rewrite Hfb. by rewrite decide_False. }
  eexists _, _, _. split; [exact Ha|]. split; [exact Hab|]. split; [exact Hb|].
  rewrite Hba. cbn in *. do 2 f_equal. apply headers_ext.
  - intros h. rewrite Hnba, Hnab, Hna, Hnb. tauto.
  - intros h n. rewrite Hfba, Hfab, Hfa, Hfb.
    repeat case_decide; try done. congruence.
Qed.

(** X17, at an instance: two names under one new header. *)
Lemma Add_of_different_pairs_commute_witness :
  ∃ sia sib si',
    SettingsINI.Add (SettingsINI.NewSettingsINI 16)
      (bytes "H") (bytes "a") (bytes "1") = (None, sia) ∧
    SettingsINI.Add sia (bytes "H") (bytes "b") (bytes "2") = (None, si') ∧
    SettingsINI.Add (SettingsINI.NewSettingsINI 16)
      (bytes "H") (bytes "b") (bytes "2") = (None, sib) ∧
    SettingsINI.Add sib (bytes "H") (bytes "a") (bytes "1") = (None, si').
Proof.
  apply (Add_of_different_pairs_commute (SettingsINI.NewSettingsINI 16)
           (bytes "H") (bytes "a") (bytes "1") (bytes "H") (bytes "b") (bytes "2"));
    done.
Defined.

(** X16, at an instance: a pair that exists. *)
Lemma ValueExists_agrees_with_Get_witness :
  SettingsINI.HeaderExists
    (SettingsINI.mk 16 []
       {[ bytes "A" := SettingsINI.mkHeader {[ bytes "x" := bytes "1" ]} ]})
    (bytes "A") = true.
Proof.
  apply (proj1 (proj2 (ValueExists_agrees_with_Get
                         (SettingsINI.mk 16 []
                            {[ bytes "A" :=
                                 SettingsINI.mkHeader {[ bytes "x" := bytes "1" ]} ]})
                         (bytes "A") (bytes "x")))).
  by vm_compute.
Defined.

(** ** Save and the files *)



(** ** Errors as text *)

Section error_text.
Implicit Types (a b : gostring) (c : ascii).

Lemma app_cons_inj (A : Type) (x : A) (a1 a2 b1 b2 : list A) :
  x ∉ a1 → x ∉ a2 → a1 ++ x :: b1 = a2 ++ x :: b2 → a1 = a2 ∧ b1 = b2.
Proof.
  revert a2. induction a1 as [|y a1 IH]; intros [|z a2] H1 H2 Heq; cbn in Heq.
  - by simplify_eq.
  - simplify_eq. destruct H2. left.
  - simplify_eq. destruct H1. left.
  - apply not_elem_of_cons in H1 as [_ H1], H2 as [_ H2].
    injection Heq as -> Heq. destruct (IH a2 H1 H2 Heq) as [-> ->]. done.
Qed.

Lemma bytes_inj (s1 s2 : string) : bytes s1 = bytes s2 → s1 = s2.
Proof.
  unfold bytes. intros Heq.
  by rewrite <- (string_of_list_ascii_of_string s1),
             <- (string_of_list_ascii_of_string s2), Heq.
Qed.

Lemma ErrorType_String_inj (et1 et2 : ErrorType) :
  ErrorType_String (ErrorType_byte et1) = ErrorType_String (ErrorType_byte et2) →
  et1 = et2.
Proof. by destruct et1, et2. Qed.

Lemma ErrorType_String_no_bracket (et : ErrorType) :
  "["%char ∉ ErrorType_String (ErrorType_byte et).
Proof. destruct et; vm_compute; absent. Qed.
End error_text.

(** X19.  Every kind of error has a description of its own, none of
    which is "UNKNOWN"; every other byte, the count [ErrorTypeTotal]
    among them, is described as "UNKNOWN". *)
Theorem ErrorType_String_tells_kinds_apart :
  (∀ et1 et2 : ErrorType,
      ErrorType_String (ErrorType_byte et1) = ErrorType_String (ErrorType_byte et2) →
      et1 = et2) ∧
  (∀ et : ErrorType, ErrorType_String (ErrorType_byte et) ≠ bytes "UNKNOWN") ∧
  (∀ b : Z, (∀ et : ErrorType, ErrorType_byte et ≠ b) →
            ErrorType_String b = bytes "UNKNOWN") ∧
  ErrorType_String ErrorTypeTotal = bytes "UNKNOWN".
Proof.
  split; [apply ErrorType_String_inj|]. split; [by intros []|]. split; [|done].
  intros b Hb. unfold ErrorType_String.
  repeat (case_decide as H; [by apply eq_sym, Hb in H|]; clear H). done.
Qed.

(** X20.  The text of an error tells the error: two errors whose sources
    hold no closing bracket, as the two sources of the package do not,
    have the same text only if they are of the same kind and have the
    same source and the same message. *)
Theorem Error_text_tells_errors_apart (e1 e2 : Error) :
  "]"%char ∉ bytes (Source e1) → "]"%char ∉ bytes (Source e2) →
  Error_Error e1 = Error_Error e2 → e1 = e2.
Proof.
  intros H1 H2. unfold Error_Error. rewrite <- !app_assoc.
  change (bytes "[" ++ ?x) with ("["%char :: x).
  intros Heq.
  apply app_cons_inj in Heq as [Hkind Heq];
    [|apply ErrorType_String_no_bracket..].
  apply ErrorType_String_inj in Hkind.
  change (bytes "]:" ++ ?x) with ("]"%char :: ":"%char :: x) in Heq.
  apply app_cons_inj in Heq as [Hsource Hmessage]; [|done..].
  injection Hmessage as Hmessage.
  apply bytes_inj in Hsource, Hmessage.
  destruct e1, e2. cbn in *. by subst.
Qed.

(** X20, at an instance: two errors of the package. *)
Lemma Error_text_tells_errors_apart_witness :
  let e1 := mkError ErrorTypeLoading "SettingsINI" "Failed to open the file" in
  let e2 := mkError ErrorTypeLoading "SettingsINI" "Failed to open the file" in
  ("]"%char ∉ bytes (Source e1)) ∧ ("]"%char ∉ bytes (Source e2)) ∧
  Error_Error e1 = Error_Error e2 ∧ e1 = e2.
Proof.
  intros e1 e2.
  assert ("]"%char ∉ bytes (Source e1)) as H1 by (vm_compute; absent).
  assert ("]"%char ∉ bytes (Source e2)) as H2 by (vm_compute; absent).
  assert (Error_Error e1 = Error_Error e2) as Heq by done.
  split; [done|]. split; [done|]. split; [done|].
  exact (Error_text_tells_errors_apart e1 e2 H1 H2 Heq).
Defined.

(** ** The getters that convert *)

Section typed_access.
Context {ConvErr F32 F64 : Type}.
Variable Atoi : gostring → Z * option ConvErr.
Variable ParseUint : gostring → Z → Z → Z * option ConvErr.
Variable ParseFloat : gostring → Z → F64 * option ConvErr.
Variable float32 : F64 → F32.
Variable zero32 : F32.
Variable zero64 : F64.

Lemma cell_of_at d i j :
  i < length d → j < length (row_at d i) →
  cell d i j = Some (cell_at d i j).
Proof.
  unfold cell, cell_at, row_at. intros Hi.
  destruct (lookup_lt_is_Some_2 d i Hi) as [r ->]. cbn. intros Hj.
  by destruct (lookup_lt_is_Some_2 r j Hj) as [v ->].
Qed.

Lemma sheet_typed_of_Get sd row col found :
  SpreadsheetDelim.Get sd row col =
    Value (match found with Some v => (v, true) | None => ([], false) end) →
  SpreadsheetDelim.GetInt Atoi sd row col = Value (typed 0%Z Atoi found) ∧
  SpreadsheetDelim.GetUint ParseUint sd row col =
    Value (typed 0%Z
      (λ str, (uint (ParseUint str 10 IntSize).1, (ParseUint str 10 IntSize).2))
      found) ∧
  SpreadsheetDelim.GetFloat32 ParseFloat float32 zero32 sd row col =
    Value (typed zero32
             (λ str, (float32 (ParseFloat str 32).1, (ParseFloat str 32).2))
             found) ∧
  SpreadsheetDelim.GetFloat64 ParseFloat zero64 sd row col =
    Value (typed zero64 (λ str, ParseFloat str 64) found).
Proof.
  intros HGet.
  unfold SpreadsheetDelim.GetInt, SpreadsheetDelim.GetUint,
    SpreadsheetDelim.GetFloat32, SpreadsheetDelim.GetFloat64.
  rewrite HGet. destruct found as [v|]; cbn; [|done].
  destruct (Atoi v), (ParseUint v 10 IntSize), (ParseFloat v 32),
    (ParseFloat v 64). done.
Qed.

Lemma sheet_typed_of_cell sd row col :
  (0 ≤ row)%Z → (0 ≤ col)%Z →
  SpreadsheetDelim.Get sd row col =
    Value (match cell (SpreadsheetDelim.Data sd) (Z.to_nat row) (Z.to_nat col)
           with Some v => (v, true) | None => ([], false) end).
Proof.
  intros Hr Hc.
  destruct (cell (SpreadsheetDelim.Data sd) (Z.to_nat row) (Z.to_nat col))
    as [v|] eqn:Hcell.
  - by apply Get_in_bounds.
  - by apply Get_beyond_bounds.
Qed.

Lemma store_typed_of_find si header name :
  let found := find_value (SettingsINI.Headers si) header name in
  SettingsINI.GetInt Atoi si header name = typed 0%Z Atoi found ∧
  SettingsINI.GetUint ParseUint si header name =
    typed 0%Z
      (λ str, (uint (ParseUint str 10 IntSize).1, (ParseUint str 10 IntSize).2))
      found ∧
  SettingsINI.GetFloat32 ParseFloat float32 zero32 si header name =
    typed zero32
      (λ str, (float32 (ParseFloat str 32).1, (ParseFloat str 32).2)) found ∧
  SettingsINI.GetFloat64 ParseFloat zero64 si header name =
    typed zero64 (λ str, ParseFloat str 64) found.
Proof.
  intros found.
  unfold SettingsINI.GetInt, SettingsINI.GetUint, SettingsINI.GetFloat32,
    SettingsINI.GetFloat64.
  rewrite Get_find. fold found. destruct found as [v|]; cbn; [|done].
  destruct (Atoi v), (ParseUint v 10 IntSize), (ParseFloat v 32),
    (ParseFloat v 64). done.
Qed.

(** X21.  The converting getters of a table, at a row and a column that
    are not negative, convert the cell at that place: if the table has
    the cell they return its conversion and true, together with the
    error of the conversion if it fails; if the table has no such cell
    they return the zero value, false and no error.  At a negative row
    they fault as [Get] does. *)
Theorem table_getters_convert_the_cell
    (sd : SpreadsheetDelim.SpreadsheetDelim) (row col : Z) :
  ((0 ≤ row)%Z → (0 ≤ col)%Z →
   let found :=
     cell (SpreadsheetDelim.Data sd) (Z.to_nat row) (Z.to_nat col) in
   SpreadsheetDelim.GetInt Atoi sd row col = Value (typed 0%Z Atoi found) ∧
   SpreadsheetDelim.GetUint ParseUint sd row col =
     Value (typed 0%Z
      (λ str, (uint (ParseUint str 10 IntSize).1, (ParseUint str 10 IntSize).2))
      found) ∧
   SpreadsheetDelim.GetFloat32 ParseFloat float32 zero32 sd row col =
     Value (typed zero32
              (λ str, (float32 (ParseFloat str 32).1, (ParseFloat str 32).2))
              found) ∧
   SpreadsheetDelim.GetFloat64 ParseFloat zero64 sd row col =
     Value (typed zero64 (λ str, ParseFloat str 64) found)) ∧
  ((row < 0)%Z →
   SpreadsheetDelim.GetInt Atoi sd row col = Panic ∧
   SpreadsheetDelim.GetUint ParseUint sd row col = Panic ∧
   SpreadsheetDelim.GetFloat32 ParseFloat float32 zero32 sd row col = Panic ∧
   SpreadsheetDelim.GetFloat64 ParseFloat zero64 sd row col = Panic).
Proof.
  split.
  - intros Hr Hc found. apply sheet_typed_of_Get. by apply sheet_typed_of_cell.
  - intros Hr.
    unfold SpreadsheetDelim.GetInt, SpreadsheetDelim.GetUint,
      SpreadsheetDelim.GetFloat32, SpreadsheetDelim.GetFloat64.
    by rewrite Get_negative_row.
Qed.

(** X22.  What [Set] puts into a table the converting getters convert:
    after [Set] at a row and a column that are not negative, each of them
    returns, for that place, the conversion of the value set, and true. *)
Theorem table_getters_convert_what_Set_put
    (sd : SpreadsheetDelim.SpreadsheetDelim) (row col : Z) (v : gostring) :
  (0 ≤ row)%Z → (0 ≤ col)%Z →
  ∃ sd',
    SpreadsheetDelim.Set_ sd row col v = Value (None, sd') ∧
    SpreadsheetDelim.GetInt Atoi sd' row col =
      Value ((Atoi v).1, true, (Atoi v).2) ∧
    SpreadsheetDelim.GetUint ParseUint sd' row col =
      Value (uint (ParseUint v 10 IntSize).1, true, (ParseUint v 10 IntSize).2) ∧
    SpreadsheetDelim.GetFloat32 ParseFloat float32 zero32 sd' row col =
      Value (float32 (ParseFloat v 32).1, true, (ParseFloat v 32).2) ∧
    SpreadsheetDelim.GetFloat64 ParseFloat zero64 sd' row col =
      Value ((ParseFloat v 64).1, true, (ParseFloat v 64).2).
Proof.
  intros Hr Hc.
  destruct (Set_observed sd row col v Hr Hc) as (d' & HSet & Hlen & Hrows & Hcells).
  eexists. split; [exact HSet|].
  apply (sheet_typed_of_Get _ _ _ (Some v)).
  apply Get_in_bounds; [done..|]. cbn.
  rewrite cell_of_at.
  - by rewrite Hcells, decide_True.
  - lia.
  - rewrite Hrows, decide_True by done. lia.
Qed.

(** X23.  The converting getters of a store convert the value stored
    under the header and the name: its conversion and true, with the
    error of the conversion if it fails, and the zero value, false and no
    error if there is none.  What they report as found is what
    [ValueExists] reports, whether or not the conversion fails. *)
Theorem store_getters_convert_the_value
    (si : SettingsINI.SettingsINI) (header name : gostring) :
  let found := find_value (SettingsINI.Headers si) header name in
  SettingsINI.GetInt Atoi si header name = typed 0%Z Atoi found ∧
  SettingsINI.GetUint ParseUint si header name =
    typed 0%Z
      (λ str, (uint (ParseUint str 10 IntSize).1, (ParseUint str 10 IntSize).2))
      found ∧
  SettingsINI.GetFloat32 ParseFloat float32 zero32 si header name =
    typed zero32
      (λ str, (float32 (ParseFloat str 32).1, (ParseFloat str 32).2)) found ∧
  SettingsINI.GetFloat64 ParseFloat zero64 si header name =
    typed zero64 (λ str, ParseFloat str 64) found ∧
  (SettingsINI.GetInt Atoi si header name).1.2 =
    SettingsINI.ValueExists si header name ∧
  (SettingsINI.GetUint ParseUint si header name).1.2 =
    SettingsINI.ValueExists si header name ∧
  (SettingsINI.GetFloat32 ParseFloat float32 zero32 si header name).1.2 =
    SettingsINI.ValueExists si header name ∧
  (SettingsINI.GetFloat64 ParseFloat zero64 si header name).1.2 =
    SettingsINI.ValueExists si header name.
Proof.
  intros found.
  destruct (store_typed_of_find si header name) as (HInt & HUint & H32 & H64).
  fold found in HInt, HUint, H32, H64.
  rewrite HInt, HUint, H32, H64, ValueExists_Get, Get_find. fold found.
  by destruct found.
Qed.

(** X24.  What [Add] or [Set] puts into a store the converting getters
    convert: after either has returned without an error, each of them
    returns, for that header and name, the conversion of the value given,
    and true. *)
Theorem store_getters_convert_what_was_put
    (si si' : SettingsINI.SettingsINI) (header name value : gostring) :
  SettingsINI.Add si header name value = (None, si') ∨
  SettingsINI.Set_ si header name value = (None, si') →
  SettingsINI.GetInt Atoi si' header name =
    ((Atoi value).1, true, (Atoi value).2) ∧
  SettingsINI.GetUint ParseUint si' header name =
    (uint (ParseUint value 10 IntSize).1, true,
     (ParseUint value 10 IntSize).2) ∧
  SettingsINI.GetFloat32 ParseFloat float32 zero32 si' header name =
    (float32 (ParseFloat value 32).1, true, (ParseFloat value 32).2) ∧
  SettingsINI.GetFloat64 ParseFloat zero64 si' header name =
    ((ParseFloat value 64).1, true, (ParseFloat value 64).2).
Proof.
  intros Hput.
  assert (find_value (SettingsINI.Headers si') header name = Some value) as Hfound.
  { destruct Hput as [HAdd|HSet].
    - unfold SettingsINI.Add in HAdd.
      destruct (SettingsINI.Headers si !! header) as [h|] eqn:Hh.
      + destruct (SettingsINI.Values h !! name); [done|].
        injection HAdd as <-. cbn.
        rewrite find_store_value by eauto. by rewrite decide_True.
      + cbn in HAdd. rewrite lookup_empty in HAdd. injection HAdd as <-. cbn.
        rewrite find_store_value by (rewrite lookup_insert_eq; eauto).
        by rewrite decide_True.
    - unfold SettingsINI.Set_ in HSet.
      destruct (SettingsINI.Headers si !! header) as [h|] eqn:Hh; [|done].
      destruct (SettingsINI.Values h !! name); [|done].
      injection HSet as <-. cbn.
      rewrite find_store_value by eauto. by rewrite decide_True. }
  pose proof (store_typed_of_find si' header name) as Htyped.
  cbv zeta in Htyped. by rewrite Hfound in Htyped.
Qed.
End typed_access.

(** X21, at an instance, with the length of the text for every
    conversion: the cell "12" of a table of one row. *)
Lemma table_getters_convert_the_cell_witness :
  let conv := λ str : gostring, (len str, @None unit) in
  let sd := SpreadsheetDelim.mk 16 [] (bytes ",") [[bytes "7"; bytes "12"]] in
  SpreadsheetDelim.GetInt conv sd 0 1 = Value (2%Z, true, None) ∧
  SpreadsheetDelim.GetInt conv sd 0 2 = Value (0%Z, false, None).
Proof.
  intros conv sd. split.
  - exact (proj1 (proj1 (table_getters_convert_the_cell
                           conv (λ str _ _, conv str) (λ str _, conv str)
                           id 0%Z 0%Z sd 0%Z 1%Z)
                    ltac:(done) ltac:(done))).
  - exact (proj1 (proj1 (table_getters_convert_the_cell
                           conv (λ str _ _, conv str) (λ str _, conv str)
                           id 0%Z 0%Z sd 0%Z 2%Z)
                    ltac:(done) ltac:(done))).
Defined.

(** X22, at an instance: a value set into an empty table. *)
Lemma table_getters_convert_what_Set_put_witness :
  let conv := λ str : gostring, (len str, @None unit) in
  ∃ sd',
    SpreadsheetDelim.Set_ (SpreadsheetDelim.NewSpreadsheetDelim 16 (bytes ","))
      1 2 (bytes "345") = Value (None, sd') ∧
    SpreadsheetDelim.GetInt conv sd' 1 2 = Value (3%Z, true, None).
Proof.
  intros conv.
  destruct (table_getters_convert_what_Set_put
              conv (λ str _ _, conv str) (λ str _, conv str) id 0%Z 0%Z
              (SpreadsheetDelim.NewSpreadsheetDelim 16 (bytes ","))
              1%Z 2%Z (bytes "345")
              ltac:(done) ltac:(done)) as (sd' & HSet & HInt & _).
  by exists sd'.
Defined.

(** X24, at an instance: a pair added to an empty store. *)
Lemma store_getters_convert_what_was_put_witness :
  let conv := λ str : gostring, (len str, @None unit) in
  let si := SettingsINI.NewSettingsINI 16 in
  let si' := (SettingsINI.Add si (bytes "H") (bytes "k") (bytes "345")).2 in
  SettingsINI.Add si (bytes "H") (bytes "k") (bytes "345") = (None, si') ∧
  SettingsINI.GetInt conv si' (bytes "H") (bytes "k") = (3%Z, true, None).
Proof.
  intros conv si si'.
  assert (SettingsINI.Add si (bytes "H") (bytes "k") (bytes "345") = (None, si'))
    as HAdd by (by vm_compute).
  split; [done|].
  exact (proj1 (store_getters_convert_what_was_put
                  conv (λ str _ _, conv str) (λ str _, conv str) id 0%Z 0%Z
                  si si' (bytes "H") (bytes "k") (bytes "345") (or_introl HAdd))).
Defined.
